(** * Lesson generation route: a shallow embedding of
    [src/app/api/generate-lesson/route.ts]

    The development models the create endpoint ([POST]), the title helper
    ([extractTitle]), the generation orchestrator ([generateLessonContent]),
    the two provider adapters ([generateWithGemini], [generateWithHelicone])
    and the mock generator ([generateMockLesson]).

    JavaScript strings are sequences of UTF-16 code units, so a string is a
    [list N]; [length], [substring] and [split] count code units exactly as
    the runtime does.  Everything outside the repository (the provider
    replies, the record store's verdicts, the clock, the engine's built-in
    case mapping and error texts) is an explicit input of the model. *)

From Stdlib Require Import SpecFloat.
From stdpp Require Import gmap list strings.

Open Scope N_scope.

(** ** JavaScript strings *)

Module JsString.

(** A string value: its UTF-16 code units. *)
Abbreviation jsstring := (list N).

(** Decoding of a source literal.  The source file is UTF-8; the value of a
    string literal is the UTF-16 encoding of its code points. *)
Definition utf16_of_code_point (cp : N) : jsstring :=
  if cp <? 65536 then [cp]
  else let v := cp - 65536 in [55296 + N.shiftr v 10; 56320 + N.land v 1023].

Fixpoint utf16_of_utf8 (bs : list N) : jsstring :=
  match bs with
  | [] => []
  | b0 :: r0 =>
    if b0 <? 128 then b0 :: utf16_of_utf8 r0
    else match r0 with
    | [] => [65533]
    | b1 :: r1 =>
      if b0 <? 224 then
        utf16_of_code_point (N.land b0 31 * 64 + N.land b1 63) ++ utf16_of_utf8 r1
      else match r1 with
      | [] => [65533]
      | b2 :: r2 =>
        if b0 <? 240 then
          utf16_of_code_point
            (N.land b0 15 * 4096 + N.land b1 63 * 64 + N.land b2 63)
          ++ utf16_of_utf8 r2
        else match r2 with
        | [] => [65533]
        | b3 :: r3 =>
          utf16_of_code_point
            (N.land b0 7 * 262144 + N.land b1 63 * 4096
             + N.land b2 63 * 64 + N.land b3 63)
          ++ utf16_of_utf8 r3
        end
      end
    end
  end.

Definition lit (s : string) : jsstring :=
  utf16_of_utf8 (map Ascii.N_of_ascii (String.list_ascii_of_string s)).

Definition SPACE : N := 32.
Definition NEWLINE : N := 10.
Definition DQUOTE : N := 34.

(** [String(n)] for a non-negative integer: its decimal digits. *)
Fixpoint digits_fuel (fuel : nat) (n : N) (acc : jsstring) : jsstring :=
  match fuel with
  | O => acc
  | S fuel' =>
    let acc' := (48 + n mod 10) :: acc in
    if n <? 10 then acc' else digits_fuel fuel' (n / 10) acc'
  end.

Definition string_of_N (n : N) : jsstring :=
  digits_fuel (S (N.to_nat (N.log2 n))) n [].

(** [s.split(sep)] for a separator of one code unit.  The result is never
    empty: the empty string splits into one empty field. *)
Fixpoint split (sep : N) (s : jsstring) : list jsstring :=
  match s with
  | [] => [[]]
  | c :: s' =>
    if c =? sep then [] :: split sep s'
    else match split sep s' with
         | w :: ws => (c :: w) :: ws
         | [] => [[c]]
         end
  end.

(** [fields.join(sep)]. *)
Fixpoint join (sep : jsstring) (fields : list jsstring) : jsstring :=
  match fields with
  | [] => []
  | [w] => w
  | w :: ws => w ++ sep ++ join sep ws
  end.

(** [a.slice(0, n)] on an array and [s.substring(0, n)] on a string, for a
    literal count [n]: the first [n] elements. *)
Definition slice0 {A} (n : nat) (a : list A) : list A := take n a.
Definition substring0 (n : nat) (s : jsstring) : jsstring := take n s.

(** The code units [String.prototype.trim] removes: WhiteSpace and
    LineTerminator of the language specification. *)
Definition is_ws (c : N) : bool :=
  ((9 <=? c) && (c <=? 13)) || (c =? 32) || (c =? 160) || (c =? 5760)
  || ((8192 <=? c) && (c <=? 8202)) || (c =? 8232) || (c =? 8233)
  || (c =? 8239) || (c =? 8287) || (c =? 12288) || (c =? 65279).

Fixpoint trim_start (s : jsstring) : jsstring :=
  match s with
  | c :: s' => if is_ws c then trim_start s' else s
  | [] => []
  end.

Definition trim (s : jsstring) : jsstring :=
  rev (trim_start (rev (trim_start s))).

(** [s.startsWith(p)], used to express regular-expression literals that
    match a fixed text. *)
Fixpoint starts_with (p s : jsstring) : bool :=
  match p, s with
  | [], _ => true
  | _ :: _, [] => false
  | a :: p', b :: s' => (a =? b) && starts_with p' s'
  end.

(** [s.includes(p)]. *)
Fixpoint includes (p s : jsstring) : bool :=
  starts_with p s ||
  match s with
  | [] => false
  | _ :: s' => includes p s'
  end.

(** [s.replace(/<pat>\n?/g, '')] for a fixed non-empty text [pat]: scanning
    from the left, every occurrence of [pat], with the line feed that follows
    it when there is one, is removed; matches do not overlap.  [skip] counts
    the code units of the current match still to be dropped. *)
Fixpoint remove_all_from (skip : nat) (pat s : jsstring) : jsstring :=
  match s with
  | [] => []
  | c :: s' =>
    match skip with
    | S k => remove_all_from k pat s'
    | O =>
      if starts_with pat s then
        let after := drop (length pat) s in
        let nl := if starts_with [NEWLINE] after then 1%nat else 0%nat in
        remove_all_from (length pat - 1 + nl) pat s'
      else c :: remove_all_from 0 pat s'
    end
  end.

Definition remove_all (pat s : jsstring) : jsstring :=
  match pat with
  | [] => s
  | _ :: _ => remove_all_from 0 pat s
  end.

End JsString.

Import JsString.

(** ** Title derivation *)

(** [extractTitle]: [outline.split(' ').slice(0, 6).join(' ')], cut to 50
    code units and marked with three dots when longer. *)
Definition extractTitle (outline : jsstring) : jsstring :=
  let words := join [SPACE] (slice0 6 (split SPACE outline)) in
  if (50 <? length words)%nat then substring0 50 words ++ lit "..." else words.

(** The reading of the title rule in the specification: the words of the
    outline are its maximal runs of non-whitespace code units. *)
Fixpoint words_ws (s : jsstring) : list jsstring :=
  match s with
  | [] => []
  | c :: s' =>
    if is_ws c then words_ws s'
    else match s' with
         | [] => [[c]]
         | d :: _ =>
           if is_ws d then [c] :: words_ws s'
           else match words_ws s' with
                | w :: ws => (c :: w) :: ws
                | [] => [[c]]
                end
         end
  end.

Definition title_of_words (outline : jsstring) : jsstring :=
  let words := join [SPACE] (take 6 (words_ws outline)) in
  if (50 <? length words)%nat then take 50 words ++ lit "..." else words.

(** Outlines whose words are separated by exactly one U+0020 each: no other
    whitespace, no leading, trailing or doubled space. *)
Fixpoint well_spaced (after_space : bool) (s : jsstring) : bool :=
  match s with
  | [] => negb after_space
  | c :: s' =>
    if c =? SPACE then negb after_space && well_spaced true s'
    else negb (is_ws c) && well_spaced false s'
  end.

Definition single_spaced (s : jsstring) : bool :=
  match s with
  | [] => true
  | _ :: _ => well_spaced true s
  end.


(** ** Values parsed from JSON *)

Module JsValue.

#[local] Set Warnings "-register-all".

(** A JSON document.  Numbers keep the IEEE double the parser produced;
    object members are in document order. *)
Inductive json :=
| JNull
| JBool (b : bool)
| JNum (x : spec_float)
| JStr (s : jsstring)
| JArr (items : list json)
| JObj (members : list (jsstring * json)).

(** A value read out of such a document: [None] is [undefined]. *)
Abbreviation value := (option json).

(** [!!v]. *)
Definition truthy (v : value) : bool :=
  match v with
  | None | Some JNull => false
  | Some (JBool b) => b
  | Some (JNum (S754_zero _)) | Some (JNum S754_nan) => false
  | Some (JNum _) => true
  | Some (JStr []) => false
  | Some (JStr (_ :: _)) => true
  | Some (JArr _) | Some (JObj _) => true
  end.

(** [v == null], the test of [?.] and [??]. *)
Definition nullish (v : value) : bool :=
  match v with
  | None | Some JNull => true
  | Some _ => false
  end.

(** [Array.isArray(v)]. *)
Definition is_array (v : value) : bool :=
  match v with
  | Some (JArr _) => true
  | _ => false
  end.

(** [v === 0]. *)
Definition is_zero (v : value) : bool :=
  match v with
  | Some (JNum (S754_zero _)) => true
  | _ => false
  end.

Definition number_of_nat (n : nat) : spec_float :=
  match N.of_nat n with
  | N0 => S754_zero false
  | Npos p => S754_finite false p 0
  end.

(** Member lookup in a parsed object: of two members with one key the later
    one is kept by the parser. *)
Fixpoint obj_get (k : jsstring) (members : list (jsstring * json)) : value :=
  match members with
  | [] => None
  | (k', v) :: rest =>
    match obj_get k rest with
    | Some w => Some w
    | None => if decide (k = k') then Some v else None
    end
  end.

(** The key of a canonical array index, when [k] is one. *)
Definition index_of_key (k : jsstring) : option nat :=
  let n := fold_left (fun acc c => 10 * acc + (c - 48)) k 0 in
  if decide (string_of_N n = k) then Some (N.to_nat n) else None.

(** The engine's [TypeError]s this file can run into. *)
Inductive type_error :=
| ReadOfNullish (is_null : bool) (key : jsstring)
| DestructureNullish (key : jsstring)
| NotAFunction (method : jsstring).

(** [v[k]] and [v.k] on a value that came out of a JSON document.  Only own
    properties are modelled, which is exact for every key read in this file
    (none of them names a member of a built-in prototype). *)
Definition get_prop (v : value) (k : jsstring) : value + type_error :=
  match v with
  | None => inr (ReadOfNullish false k)
  | Some JNull => inr (ReadOfNullish true k)
  | Some (JObj members) => inl (obj_get k members)
  | Some (JArr items) =>
    if decide (k = lit "length") then inl (Some (JNum (number_of_nat (length items))))
    else inl (i ← index_of_key k; items !! i)
  | Some (JStr s) =>
    if decide (k = lit "length") then inl (Some (JNum (number_of_nat (length s))))
    else inl (i ← index_of_key k; c ← s !! i; Some (JStr [c]))
  | Some (JBool _) | Some (JNum _) => inl None
  end.

End JsValue.

Import JsValue.


(** ** Thrown values, lesson records and the outside world *)

(** What a [catch] clause can receive.  [ErrorObject] is any instance of
    [Error]; [Thrown] is any other value, kept as its [String(...)] image,
    the only thing the handlers of this file look at. *)
Inductive exn :=
| ErrorObject (message : jsstring) (stack : option jsstring)
| Thrown (text : jsstring).

(** [error instanceof Error ? error.message : String(error)]. *)
Definition error_text (e : exn) : jsstring :=
  match e with
  | ErrorObject message _ => message
  | Thrown text => text
  end.

(** [error instanceof Error ? error.stack : undefined]. *)
Definition error_stack (e : exn) : option jsstring :=
  match e with
  | ErrorObject _ stack => stack
  | Thrown _ => None
  end.

(** The error supabase-js hands back in the result of a request, for a
    client created without [throwOnError] as the one of this repository is:
    a plain object with the fields of the PostgREST reply.  It is no
    instance of [Error]. *)
Record PostgrestError := {
  pg_message : jsstring;
  pg_code : jsstring;
  pg_details : option jsstring;
  pg_hint : option jsstring;
}.

(** Such an object once thrown.  It has no [toString] of its own, so its
    [String(...)] image is the same whatever its fields. *)
Definition thrown_error_object (e : PostgrestError) : exn :=
  Thrown (lit "[object Object]").

(** What the JavaScript engine decides: the case mapping of
    [String.prototype.toLowerCase], the text of its own [TypeError]s, and the
    [stack] it attaches to an error object created with a given message. *)
Record Engine := {
  toLowerCase : jsstring -> jsstring;
  type_error_message : type_error -> jsstring;
  capture_stack : jsstring -> option jsstring;
}.

Inductive Status := Generating | Generated | Failed.

Inductive Provider := Helicone | Gemini.

(** [trace.response_metadata], as each adapter fills it. *)
Inductive ResponseMetadata :=
| GeminiMetadata (model finishReason safetyRatings : value)
| HeliconeMetadata (id created model : value).

(** The trace object of one generation run.  A field that is [None] is
    [undefined] (or was never assigned) and is dropped when the object is
    serialised for the store. *)
Record Trace := {
  prompt : jsstring;
  timestamp : jsstring;
  provider : option jsstring;
  model : option jsstring;
  output : option jsstring;
  mock : option bool;
  fallback_reason : option jsstring;
  response_metadata : option ResponseMetadata;
}.

Definition set_provider (p : jsstring) (t : Trace) : Trace :=
  {| prompt := prompt t; timestamp := timestamp t; provider := Some p;
     model := model t; output := output t; mock := mock t;
     fallback_reason := fallback_reason t;
     response_metadata := response_metadata t |}.

Definition set_model (m : jsstring) (t : Trace) : Trace :=
  {| prompt := prompt t; timestamp := timestamp t; provider := provider t;
     model := Some m; output := output t; mock := mock t;
     fallback_reason := fallback_reason t;
     response_metadata := response_metadata t |}.

Definition set_output (o : jsstring) (t : Trace) : Trace :=
  {| prompt := prompt t; timestamp := timestamp t; provider := provider t;
     model := model t; output := Some o; mock := mock t;
     fallback_reason := fallback_reason t;
     response_metadata := response_metadata t |}.

Definition set_mock (b : bool) (t : Trace) : Trace :=
  {| prompt := prompt t; timestamp := timestamp t; provider := provider t;
     model := model t; output := output t; mock := Some b;
     fallback_reason := fallback_reason t;
     response_metadata := response_metadata t |}.

Definition set_fallback_reason (r : jsstring) (t : Trace) : Trace :=
  {| prompt := prompt t; timestamp := timestamp t; provider := provider t;
     model := model t; output := output t; mock := mock t;
     fallback_reason := Some r;
     response_metadata := response_metadata t |}.

Definition set_response_metadata (m : ResponseMetadata) (t : Trace) : Trace :=
  {| prompt := prompt t; timestamp := timestamp t; provider := provider t;
     model := model t; output := output t; mock := mock t;
     fallback_reason := fallback_reason t;
     response_metadata := Some m |}.

(** The two shapes of the [trace] column this route writes. *)
Inductive TraceColumn :=
| RunTrace (t : Trace)
| FailureTrace (error : jsstring) (stack : option jsstring) (timestamp : jsstring).

(** A row of the [lessons] table ([Lesson] of [src/lib/types.ts]). *)
Record Lesson := {
  id : jsstring;
  outline : jsstring;
  title : option jsstring;
  content : option jsstring;
  status : Status;
  trace : option TraceColumn;
  created_at : jsstring;
}.

(** The argument of [.insert(...)]. *)
Record InsertFields := {
  ins_outline : jsstring;
  ins_title : jsstring;
  ins_status : Status;
}.

(** The argument of [.update(...)]: only the columns that are named. *)
Record UpdateFields := {
  upd_content : option jsstring;
  upd_status : option Status;
  upd_trace : option TraceColumn;
}.

(** What [fetch] resolves to.  [ok] is derived from the status as the Fetch
    standard defines it; [text()] and [json()] are the body read either way,
    and [json()] may reject. *)
Record FetchResponse := {
  http_status : N;
  body_text : jsstring + exn;
  body_json : json + exn;
}.

Definition response_ok (r : FetchResponse) : bool :=
  (200 <=? http_status r) && (http_status r <=? 299).

(** Everything this route observes of its surroundings. *)
Record Env := {
  HELICONE_API_KEY : option jsstring;
  GEMINI_API_KEY : option jsstring;
  (** the n-th evaluation of [new Date().toISOString()] *)
  clock : nat -> jsstring;
  (** [openai.chat.completions.create] for a user prompt: the completion
      object, or the error the SDK rejects with *)
  helicone_reply : jsstring -> json + exn;
  (** [fetch] of the Gemini endpoint for a prompt, or a network failure *)
  gemini_reply : jsstring -> FetchResponse + exn;
  (** the store's verdict on an insert: the new row's [id] and [created_at],
      or the error object it reports *)
  insert_reply : InsertFields -> (jsstring * jsstring) + exn;
  (** the store's verdict on an update of a row *)
  update_reply : jsstring -> UpdateFields -> option exn;
}.

(** Observable steps, in the order they happen. *)
Inductive Event :=
| EvAttempt (p : Provider) (sent_prompt : jsstring)
| EvInsert (fields : InsertFields)
| EvUpdate (lessonId : jsstring) (fields : UpdateFields).

(** The state a request runs in: the [lessons] table, the steps taken so
    far (latest last), how often the clock has been read, and the calls that
    were started without being awaited. *)
Record World := {
  store : gmap (list N) Lesson;
  log : list Event;
  ticks : nat;
  detached : list (jsstring * jsstring);
}.

(** ** Control flow: state and exceptions *)

Module Control.

Inductive outcome (A : Type) :=
| Return (a : A)
| Raise (e : exn).
Arguments Return {A} a.
Arguments Raise {A} e.

(** A computation over a state [S] that returns or throws.  What it did to
    the state before throwing stays done. *)
Definition M (S A : Type) : Type := S -> outcome A * S.

Definition ret {S A} (a : A) : M S A := fun s => (Return a, s).

Definition bind {S A B} (m : M S A) (k : A -> M S B) : M S B :=
  fun s =>
    match m s with
    | (Return a, s') => k a s'
    | (Raise e, s') => (Raise e, s')
    end.

Definition throw {S A} (e : exn) : M S A := fun s => (Raise e, s).

(** [try { m } catch (e) { h e }]. *)
Definition try_catch {S A} (m : M S A) (h : exn -> M S A) : M S A :=
  fun s =>
    match m s with
    | (Return a, s') => (Return a, s')
    | (Raise e, s') => h e s'
    end.

Definition gets {S A} (f : S -> A) : M S A := fun s => (Return (f s), s).
Definition modify {S} (f : S -> S) : M S unit := fun s => (Return tt, f s).

(** Run a computation on the second component of the state. *)
Definition lift {T S A} (m : M S A) : M (T * S) A :=
  fun ts =>
    match m ts.2 with
    | (r, s') => (r, (ts.1, s'))
    end.

(** Run a computation that owns a local object [t]; the object is dropped
    at the end. *)
Definition with_object {T S A} (t : T) (m : M (T * S) A) : M S A :=
  fun s =>
    match m (t, s) with
    | (r, (_, s')) => (r, s')
    end.

(** An awaited promise: its value, or the rejection thrown at the [await]. *)
Definition await {S A} (r : A + exn) : M S A :=
  match r with
  | inl a => ret a
  | inr e => throw e
  end.

(** [a || b] with [b] evaluated only when [a] is false. *)
Definition orM {S} (a b : M S bool) : M S bool :=
  bind a (fun x => if x then ret true else b).

End Control.

Import Control.

Notation "x <- m ;; k" := (bind m (fun x => k))
  (at level 100, m at next level, right associativity,
   format "'[v' x  <-  m  ;;  '/' k ']'").
Notation "m ;;; k" := (bind m (fun _ => k))
  (at level 100, right associativity,
   format "'[v' m  ;;;  '/' k ']'").

(** ** The route *)

Definition quoted (s : string) : jsstring := DQUOTE :: lit s ++ [DQUOTE].

(** The prompt of the easter-egg branch. *)
Definition easter_egg_prompt : jsstring :=
  lit "Generate a fun, retro TypeScript gaming Easter egg! Create an interactive Konami Code detector with:
        
- A TypeScript class that tracks arrow key presses
- The classic sequence: up, up, down, down, left, right, left, right, B, A
- A celebration function that triggers when completed
- Retro gaming ASCII art comments
- At least 3 different "
  ++ quoted "cheat code"
  ++ lit " effects (god mode, 30 lives, etc.)
- Make it nostalgic and fun for developers!

Return ONLY the TypeScript code, no markdown formatting or explanations.".

(** The prompt of the normal branch, around the outline. *)
Definition normal_prompt (outline : jsstring) : jsstring :=
  lit "Generate a complete, executable TypeScript module for an educational lesson based on this outline: "
  ++ [DQUOTE]
  ++ outline
  ++ [DQUOTE]
  ++ lit "

Requirements:
- Create an interactive quiz or educational content
- Use TypeScript with proper types
- Include functions that can be called/executed
- Make it educational and engaging
- Add comments explaining the code
- Include at least 3-5 questions or learning points

Return ONLY the TypeScript code, no markdown formatting or explanations.".

(** [generateMockLesson]: one fixed module for the easter egg, and a quiz
    module with the outline in its header otherwise. *)
Definition generateMockLesson (outline : jsstring) (isEasterEgg : bool) : jsstring :=
  if isEasterEgg then
  lit "// 🎮 KONAMI CODE EASTER EGG 🎮
// ↑ ↑ ↓ ↓ ← → ← → B A

type KeyCode = 'ArrowUp' | 'ArrowDown' | 'ArrowLeft' | 'ArrowRight' | 'KeyB' | 'KeyA';

class KonamiCodeDetector {
  private sequence: KeyCode[] = [
    'ArrowUp', 'ArrowUp', 'ArrowDown', 'ArrowDown',
    'ArrowLeft', 'ArrowRight', 'ArrowLeft', 'ArrowRight',
    'KeyB', 'KeyA'
  ];
  private currentIndex: number = 0;

  constructor() {
    this.setupListener();
  }

  private setupListener(): void {
    document.addEventListener('keydown', (e: KeyboardEvent) => {
      if (e.code === this.sequence[this.currentIndex]) {
        this.currentIndex++;
        if (this.currentIndex === this.sequence.length) {
          this.activate();
          this.currentIndex = 0;
        }
      } else {
        this.currentIndex = 0;
      }
    });
  }

  private activate(): void {
    console.log('🎮 KONAMI CODE ACTIVATED! 🎮');
    this.godMode();
    this.extraLives();
    this.unlockSecrets();
  }

  private godMode(): void {
    console.log('⚡ GOD MODE ENABLED ⚡');
    document.body.style.filter = 'hue-rotate(180deg)';
  }

  private extraLives(): void {
    console.log('❤️ +30 LIVES! ❤️');
  }

  private unlockSecrets(): void {
    console.log('🔓 ALL SECRETS UNLOCKED! 🔓');
  }
}

// Initialize the detector
const konami = new KonamiCodeDetector();
console.log('Try the Konami Code: ↑ ↑ ↓ ↓ ← → ← → B A');"
  else
  let mockLesson :=
  lit "// TypeScript Educational Module
// Topic: "
  ++ outline
  ++ lit "

interface Question {
  id: number;
  question: string;
  options: string[];
  correctAnswer: number;
  explanation: string;
}

class Quiz {
  private questions: Question[] = [
    {
      id: 1,
      question: "
  ++ quoted "What is TypeScript?"
  ++ lit ",
      options: [
        "
  ++ quoted "A JavaScript library"
  ++ lit ",
        "
  ++ quoted "A superset of JavaScript"
  ++ lit ",
        "
  ++ quoted "A backend framework"
  ++ lit ",
        "
  ++ quoted "A database"
  ++ lit "
      ],
      correctAnswer: 1,
      explanation: "
  ++ quoted "TypeScript is a superset of JavaScript that adds static typing."
  ++ lit "
    },
    {
      id: 2,
      question: "
  ++ quoted "What does the 'interface' keyword do?"
  ++ lit ",
      options: [
        "
  ++ quoted "Creates a class"
  ++ lit ",
        "
  ++ quoted "Defines a type structure"
  ++ lit ",
        "
  ++ quoted "Imports a module"
  ++ lit ",
        "
  ++ quoted "Exports a function"
  ++ lit "
      ],
      correctAnswer: 1,
      explanation: "
  ++ quoted "Interfaces define the structure of objects in TypeScript."
  ++ lit "
    },
    {
      id: 3,
      question: "
  ++ quoted "What is the purpose of generics?"
  ++ lit ",
      options: [
        "
  ++ quoted "To make code faster"
  ++ lit ",
        "
  ++ quoted "To create reusable components"
  ++ lit ",
        "
  ++ quoted "To compress code"
  ++ lit ",
        "
  ++ quoted "To add colors"
  ++ lit "
      ],
      correctAnswer: 1,
      explanation: "
  ++ quoted "Generics allow creating reusable components that work with multiple types."
  ++ lit "
    }
  ];

  checkAnswer(questionId: number, answer: number): boolean {
    const question = this.questions.find(q => q.id === questionId);
    return question ? question.correctAnswer === answer : false;
  }

  getExplanation(questionId: number): string {
    const question = this.questions.find(q => q.id === questionId);
    return question ? question.explanation : "
  ++ quoted "Question not found"
  ++ lit ";
  }

  getAllQuestions(): Question[] {
    return this.questions;
  }
}

// Example usage:
const quiz = new Quiz();
console.log("
  ++ quoted "Quiz loaded with"
  ++ lit ", quiz.getAllQuestions().length, "
  ++ quoted "questions"
  ++ lit ");

export { Quiz, Question };"
  in mockLesson.


Definition empty_world : World :=
  {| store := ∅; log := []; ticks := 0; detached := [] |}.

Section Route.

Variable engine : Engine.
Variable env : Env.

(** [new Error(message)]. *)
Definition new_Error (message : jsstring) : exn :=
  ErrorObject message (capture_stack engine message).

(** The [TypeError] the engine throws. *)
Definition new_TypeError (te : type_error) : exn :=
  new_Error (type_error_message engine te).

(** A property read inside a computation. *)
Definition read {S} (v : value) (k : string) : M S value :=
  match get_prop v (lit k) with
  | inl x => ret x
  | inr te => throw (new_TypeError te)
  end.

(** The receiver of a call [v.method(...)] of a [String] method: only a
    string has it. *)
Definition string_receiver {S} (v : value) (method : string) : M S jsstring :=
  match v with
  | Some (JStr s) => ret s
  | None => throw (new_TypeError (ReadOfNullish false (lit method)))
  | Some JNull => throw (new_TypeError (ReadOfNullish true (lit method)))
  | Some _ => throw (new_TypeError (NotAFunction (lit method)))
  end.

(** The clean-up both adapters apply: the three fence patterns are removed
    in this order, then the text is trimmed. *)
Definition strip_fences (s : jsstring) : jsstring :=
  trim
    (remove_all (lit "```")
       (remove_all (lit "```ts")
          (remove_all (lit "```typescript") s))).

(** *** The world's operations *)

Definition emit (ev : Event) : M World unit :=
  modify (fun w =>
    {| store := store w; log := log w ++ [ev]; ticks := ticks w;
       detached := detached w |}).

(** [new Date().toISOString()]. *)
Definition now : M World jsstring :=
  t <- gets (fun w => clock env (ticks w)) ;;
  modify (fun w =>
    {| store := store w; log := log w; ticks := S (ticks w);
       detached := detached w |}) ;;;
  ret t.

Definition set_store (f : gmap (list N) Lesson -> gmap (list N) Lesson) : M World unit :=
  modify (fun w =>
    {| store := f (store w); log := log w; ticks := ticks w;
       detached := detached w |}).

(** A call of an [async] function that is not awaited. *)
Definition detach (lessonId outline : jsstring) : M World unit :=
  modify (fun w =>
    {| store := store w; log := log w; ticks := ticks w;
       detached := detached w ++ [(lessonId, outline)] |}).

(** The row the store creates for an insert. *)
Definition new_row (fields : InsertFields) (new_id stamp : jsstring) : Lesson :=
  {| id := new_id; outline := ins_outline fields;
     title := Some (ins_title fields); content := None;
     status := ins_status fields; trace := None; created_at := stamp |}.

(** [supabase.from('lessons').insert(fields).select().single()]: the store
    either reports an error and creates nothing, or creates the row, whose
    other columns are empty, and returns it. *)
Definition supabase_insert (fields : InsertFields) : M World (Lesson + exn) :=
  emit (EvInsert fields) ;;;
  match insert_reply env fields with
  | inr insertError => ret (inr insertError)
  | inl (new_id, stamp) =>
    let lesson := new_row fields new_id stamp in
    set_store (insert new_id lesson) ;;;
    ret (inl lesson)
  end.

Definition apply_update (fields : UpdateFields) (l : Lesson) : Lesson :=
  {| id := id l; outline := outline l; title := title l;
     content := match upd_content fields with Some c => Some c | None => content l end;
     status := match upd_status fields with Some s => s | None => status l end;
     trace := match upd_trace fields with Some t => Some t | None => trace l end;
     created_at := created_at l |}.

(** [supabase.from('lessons').update(fields).eq('id', lessonId)]: the store
    either reports an error and changes nothing, or sets the named columns of
    the row with that id (of no row, when there is none).  The client
    resolves to [{ error }] in both cases; it does not reject. *)
Definition supabase_update (lessonId : jsstring) (fields : UpdateFields) : M World (option exn) :=
  emit (EvUpdate lessonId fields) ;;;
  match update_reply env lessonId fields with
  | Some updateError => ret (Some updateError)
  | None =>
    set_store (alter (apply_update fields) lessonId) ;;;
    ret None
  end.

(** *** The adapters

    Both run with the caller's trace object as the first component of the
    state: the [trace] parameter of the source is a reference to it. *)

Definition modify_trace (f : Trace -> Trace) : M (Trace * World) unit :=
  modify (fun tw => (f tw.1, tw.2)).

(** [generateWithGemini]: the request, the status check, the two checks
    of the reply's structure, the clean-up of the first part's text, and the
    metadata written to the trace. *)
Definition generateWithGemini (prompt : jsstring) : M (Trace * World) jsstring :=
  lift (emit (EvAttempt Gemini prompt)) ;;;
  response <- await (gemini_reply env prompt) ;;
  if negb (response_ok response) then
    errorText <- await (body_text response) ;;
    throw (new_Error (lit "Gemini API returned " ++ string_of_N (http_status response)
                      ++ lit ": " ++ errorText))
  else
  data <- await (body_json response) ;;
  candidates <- read (Some data) "candidates" ;;
  invalid <- orM (ret (negb (truthy candidates)))
            (orM (ret (negb (is_array candidates)))
                 (len <- read candidates "length" ;; ret (is_zero len))) ;;
  if invalid then throw (new_Error (lit "Invalid response structure from Gemini API"))
  else
  candidate <- read candidates "0" ;;
  empty <- orM (c <- read candidate "content" ;; ret (negb (truthy c)))
          (orM (c <- read candidate "content" ;;
                p <- read c "parts" ;; ret (negb (truthy p)))
               (c <- read candidate "content" ;;
                p <- read c "parts" ;;
                len <- read p "length" ;; ret (is_zero len))) ;;
  if empty then throw (new_Error (lit "No content in Gemini API response"))
  else
  c <- read candidate "content" ;;
  parts <- read c "parts" ;;
  part <- read parts "0" ;;
  text <- read part "text" ;;
  raw <- string_receiver text "replace" ;;
  let content := strip_fences raw in
  modify_trace (set_output content) ;;;
  again <- read (Some data) "candidates" ;;
  first <- read again "0" ;;
  fc <- read first "content" ;;
  role <- read fc "role" ;;
  finishReason <- read candidate "finishReason" ;;
  safetyRatings <- read candidate "safetyRatings" ;;
  modify_trace (set_response_metadata
    (GeminiMetadata (if truthy role then role else Some (JStr (lit "model")))
                    finishReason safetyRatings)) ;;;
  ret content.

(** [generateWithHelicone]: the chat completion for the prompt, the content
    of its first choice through the optional chain, with the empty string in
    place of a missing one, its clean-up, and the metadata written to the
    trace. *)
Definition generateWithHelicone (prompt : jsstring) : M (Trace * World) jsstring :=
  lift (emit (EvAttempt Helicone prompt)) ;;;
  completion <- await (helicone_reply env prompt) ;;
  choices <- read (Some completion) "choices" ;;
  chained <-
    (if nullish choices then ret None else
     choice <- read choices "0" ;;
     if nullish choice then ret None else
     message <- read choice "message" ;;
     if nullish message then ret None else
     read message "content") ;;
  let content := if nullish chained then Some (JStr []) else chained in
  raw <- string_receiver (if truthy content then content else Some (JStr [])) "replace" ;;
  let cleaned := strip_fences raw in
  cid <- read (Some completion) "id" ;;
  created <- read (Some completion) "created" ;;
  cmodel <- read (Some completion) "model" ;;
  modify_trace (set_response_metadata (HeliconeMetadata cid created cmodel)) ;;;
  modify_trace (set_output cleaned) ;;;
  ret cleaned.

(** *** The orchestrator *)

(** [!!process.env.KEY]: set, and not to the empty string. *)
Definition configured (key : option jsstring) : bool :=
  match key with
  | Some (_ :: _) => true
  | Some [] | None => false
  end.

(** [generateLessonContent]: the trace object, the credentials, the prompt,
    the chain of attempts, the [Generated] update, and the handler that
    turns anything thrown into a [Failed] update. *)
Definition generateLessonContent (lessonId outline : jsstring) : M World unit :=
  try_catch
    (stamp <- now ;;
     with_object
       {| prompt := lit "Generate a TypeScript educational module for: " ++ outline;
          timestamp := stamp;
          provider := None;
          model := None;
          output := None; mock := None; fallback_reason := None;
          response_metadata := None |}
       (let useHelicone := configured (HELICONE_API_KEY env) in
        let useGemini := configured (GEMINI_API_KEY env) in
        let isEasterEgg :=
          includes (lit "konami") (toLowerCase engine outline)
          || includes (lit "up up down down") (toLowerCase engine outline) in
        let prompt :=
          if isEasterEgg then easter_egg_prompt else normal_prompt outline in
        content <-
          (if useHelicone then
             try_catch
               (modify_trace (set_provider (lit "helicone")) ;;;
                modify_trace (set_model (lit "gpt-4o-mini")) ;;;
                generateWithHelicone prompt)
               (fun error =>
                  if useGemini then
                    try_catch
                      (modify_trace (set_provider (lit "gemini")) ;;;
                       modify_trace (set_model (lit "gemini-2.5-flash")) ;;;
                       generateWithGemini prompt)
                      (fun error2 =>
                         let content := generateMockLesson outline isEasterEgg in
                         modify_trace (set_output content) ;;;
                         modify_trace (set_mock true) ;;;
                         modify_trace (set_fallback_reason (error_text error2)) ;;;
                         ret content)
                  else
                    let content := generateMockLesson outline isEasterEgg in
                    modify_trace (set_output content) ;;;
                    modify_trace (set_mock true) ;;;
                    modify_trace (set_fallback_reason (error_text error)) ;;;
                    ret content)
           else if useGemini then
             try_catch
               (modify_trace (set_provider (lit "gemini")) ;;;
                modify_trace (set_model (lit "gemini-2.5-flash")) ;;;
                generateWithGemini prompt)
               (fun error =>
                  let content := generateMockLesson outline isEasterEgg in
                  modify_trace (set_output content) ;;;
                  modify_trace (set_mock true) ;;;
                  modify_trace (set_fallback_reason (error_text error)) ;;;
                  ret content)
           else
             let content := generateMockLesson outline isEasterEgg in
             modify_trace (set_output content) ;;;
             modify_trace (set_mock true) ;;;
             ret content) ;;
        trace <- gets fst ;;
        updateError <-
          lift (supabase_update lessonId
                  {| upd_content := Some content;
                     upd_status := Some Generated;
                     upd_trace := Some (RunTrace trace) |}) ;;
        match updateError with
        | Some e => throw e
        | None => ret tt
        end))
    (fun error =>
       stamp <- now ;;
       supabase_update lessonId
         {| upd_content := None;
            upd_status := Some Failed;
            upd_trace := Some (FailureTrace (error_text error) (error_stack error) stamp) |} ;;;
       ret tt).

(** *** The create endpoint *)

Inductive ResponseBody :=
| ErrorBody (error : jsstring)
| CreatedBody (lessonId : jsstring) (status : Status).

(** [NextResponse.json(body, { status })]; the status is 200 when none is
    given. *)
Record Response := {
  code : N;
  payload : ResponseBody;
}.

(** [POST].  [request] is what [request.json()] resolves to, or the error
    it rejects with when the body is not JSON. *)
Definition POST (request : json + exn) : M World Response :=
  try_catch
    (parsed <- await request ;;
     outline <-
       match get_prop (Some parsed) (lit "outline") with
       | inl v => ret v
       | inr _ => throw (new_TypeError (DestructureNullish (lit "outline")))
       end ;;
     if negb (truthy outline) then
       ret {| code := 400; payload := ErrorBody (lit "Outline is required") |}
     else
     text <- string_receiver outline "split" ;;
     inserted <- supabase_insert
       {| ins_outline := text;
          ins_title := extractTitle text;
          ins_status := Generating |} ;;
     match inserted with
     | inr insertError =>
       ret {| code := 500; payload := ErrorBody (lit "Failed to create lesson") |}
     | inl lesson =>
       detach (id lesson) text ;;;
       ret {| code := 200; payload := CreatedBody (id lesson) Generating |}
     end)
    (fun error =>
       ret {| code := 500; payload := ErrorBody (lit "Internal server error") |}).

(** The calls [POST] started without awaiting them, run to their end, one
    after the other; whatever such a call returns or throws is dropped. *)
Fixpoint run_all (tasks : list (jsstring * jsstring)) (w : World) : World :=
  match tasks with
  | [] => w
  | (lessonId, outline) :: rest =>
    run_all rest (generateLessonContent lessonId outline w).2
  end.

Definition settle (w : World) : World :=
  run_all (detached w)
    {| store := store w; log := log w; ticks := ticks w; detached := [] |}.

(** *** Reading a run

    The definitions below describe a run of the orchestrator from the
    adapters' behaviour; [generateLessonContent_run] proves that the code
    does exactly this. *)

Definition blank_trace : Trace :=
  {| prompt := []; timestamp := []; provider := None; model := None;
     output := None; mock := None; fallback_reason := None;
     response_metadata := None |}.

(** What a computation on a trace object returns, and the object it leaves,
    when started on a blank object in an empty world. *)
Definition probe {A} (m : M (Trace * World) A) : outcome A * Trace :=
  let r := m (blank_trace, empty_world) in (r.1, r.2.1).

(** The caller's object after a successful adapter call: [output] and
    [response_metadata] are the adapter's, the rest is the caller's. *)
Definition adopt (from t : Trace) : Trace :=
  {| prompt := prompt t; timestamp := timestamp t; provider := provider t;
     model := model t; output := output from; mock := mock t;
     fallback_reason := fallback_reason t;
     response_metadata := response_metadata from |}.

Definition filled (c : jsstring) (md : ResponseMetadata) (t : Trace) : Trace :=
  {| prompt := prompt t; timestamp := timestamp t; provider := provider t;
     model := model t; output := Some c; mock := mock t;
     fallback_reason := fallback_reason t;
     response_metadata := Some md |}.

Definition initial_trace (outline stamp : jsstring) : Trace :=
  {| prompt := lit "Generate a TypeScript educational module for: " ++ outline;
     timestamp := stamp;
     provider := None; model := None; output := None; mock := None;
     fallback_reason := None; response_metadata := None |}.

Definition is_easter_egg (outline : jsstring) : bool :=
  includes (lit "konami") (toLowerCase engine outline)
  || includes (lit "up up down down") (toLowerCase engine outline).

(** The text handed to whichever adapter is called. *)
Definition sent_prompt (outline : jsstring) : jsstring :=
  if is_easter_egg outline then easter_egg_prompt else normal_prompt outline.

Definition mock_content (outline : jsstring) : jsstring :=
  generateMockLesson outline (is_easter_egg outline).

(** What each adapter does for an outline, whatever the state it is called
    in ([generateWithHelicone_outcome], [generateWithGemini_outcome]). *)
Definition helicone_outcome (outline : jsstring) : outcome jsstring :=
  (probe (generateWithHelicone (sent_prompt outline))).1.

Definition gemini_outcome (outline : jsstring) : outcome jsstring :=
  (probe (generateWithGemini (sent_prompt outline))).1.

Definition adapter_outcome (outline : jsstring) (p : Provider) : outcome jsstring :=
  match p with
  | Helicone => helicone_outcome outline
  | Gemini => gemini_outcome outline
  end.

Definition as_helicone (t : Trace) : Trace :=
  set_model (lit "gpt-4o-mini") (set_provider (lit "helicone") t).

Definition as_gemini (t : Trace) : Trace :=
  set_model (lit "gemini-2.5-flash") (set_provider (lit "gemini") t).

Definition mocked (outline : jsstring) (reason : option exn) (t : Trace) : Trace :=
  let t' := set_mock true (set_output (mock_content outline) t) in
  match reason with
  | Some e => set_fallback_reason (error_text e) t'
  | None => t'
  end.

(** The attempts made, the content chosen and the trace built for an
    outline, starting from the trace [t0]. *)
Definition chosen (outline : jsstring) (t0 : Trace) : list Provider * jsstring * Trace :=
  let p := sent_prompt outline in
  if configured (HELICONE_API_KEY env) then
    match probe (generateWithHelicone p) with
    | (Return c, tb) => ([Helicone], c, adopt tb (as_helicone t0))
    | (Raise error, _) =>
      if configured (GEMINI_API_KEY env) then
        match probe (generateWithGemini p) with
        | (Return c, tb) =>
          ([Helicone; Gemini], c, adopt tb (as_gemini (as_helicone t0)))
        | (Raise error2, _) =>
          ([Helicone; Gemini], mock_content outline,
           mocked outline (Some error2) (as_gemini (as_helicone t0)))
        end
      else
        ([Helicone], mock_content outline,
         mocked outline (Some error) (as_helicone t0))
    end
  else if configured (GEMINI_API_KEY env) then
    match probe (generateWithGemini p) with
    | (Return c, tb) => ([Gemini], c, adopt tb (as_gemini t0))
    | (Raise error, _) =>
      ([Gemini], mock_content outline, mocked outline (Some error) (as_gemini t0))
    end
  else ([], mock_content outline, mocked outline None t0).

Definition run_chain (outline : jsstring) (w : World) : list Provider :=
  (chosen outline (initial_trace outline (clock env (ticks w)))).1.1.

Definition run_content (outline : jsstring) (w : World) : jsstring :=
  (chosen outline (initial_trace outline (clock env (ticks w)))).1.2.

Definition run_trace (outline : jsstring) (w : World) : Trace :=
  (chosen outline (initial_trace outline (clock env (ticks w)))).2.

Definition generated_fields (c : jsstring) (t : Trace) : UpdateFields :=
  {| upd_content := Some c; upd_status := Some Generated;
     upd_trace := Some (RunTrace t) |}.

Definition failed_fields (e : exn) (stamp : jsstring) : UpdateFields :=
  {| upd_content := None; upd_status := Some Failed;
     upd_trace := Some (FailureTrace (error_text e) (error_stack e) stamp) |}.

(** The store after an update request. *)
Definition updated (lessonId : jsstring) (fields : UpdateFields)
    (st : gmap (list N) Lesson) : gmap (list N) Lesson :=
  match update_reply env lessonId fields with
  | Some _ => st
  | None => alter (apply_update fields) lessonId st
  end.

(** The world after one run of the orchestrator. *)
Definition expected_run (lessonId outline : jsstring) (w : World) : World :=
  let attempts :=
    map (fun p => EvAttempt p (sent_prompt outline)) (run_chain outline w) in
  let fields := generated_fields (run_content outline w) (run_trace outline w) in
  match update_reply env lessonId fields with
  | None =>
    {| store := updated lessonId fields (store w);
       log := log w ++ attempts ++ [EvUpdate lessonId fields];
       ticks := S (ticks w);
       detached := detached w |}
  | Some e =>
    let fields' := failed_fields e (clock env (S (ticks w))) in
    {| store := updated lessonId fields' (store w);
       log := log w ++ attempts ++ [EvUpdate lessonId fields; EvUpdate lessonId fields'];
       ticks := S (S (ticks w));
       detached := detached w |}
  end.

(** What follows the [Generated] update in the log: nothing when the store
    accepts it, the [Failed] update when it reports an error. *)
Definition failure_tail (lessonId : jsstring) (fields : UpdateFields)
    (w : World) : list Event :=
  match update_reply env lessonId fields with
  | None => []
  | Some e => [EvUpdate lessonId (failed_fields e (clock env (S (ticks w))))]
  end.

Definition add_events (evs : list Event) (w : World) : World :=
  {| store := store w; log := log w ++ evs; ticks := ticks w;
     detached := detached w |}.

(** A computation whose result, effect on the trace object and events do
    not depend on the state it starts in. *)
Definition steady {A} (m : M (Trace * World) A) (r : outcome A)
    (f : Trace -> Trace) (evs : list Event) : Prop :=
  forall t w, m (t, w) = (r, (f t, add_events evs w)).

(** The two ways an adapter call ends: it throws and leaves the trace
    object as it was, or it returns a text and has stored it, with the
    response metadata, in the object. *)
Inductive adapter_run (m : M (Trace * World) jsstring) (evs : list Event) : Prop :=
| adapter_fails e (H : steady m (Raise e) (fun t => t) evs)
| adapter_returns c md (H : steady m (Return c) (filled c md) evs).

Definition insert_fields (text : jsstring) : InsertFields :=
  {| ins_outline := text; ins_title := extractTitle text; ins_status := Generating |}.

(** The world after an accepted insert, with the generation dispatched. *)
Definition created (text new_id stamp : jsstring) (w : World) : World :=
  {| store := <[new_id := new_row (insert_fields text) new_id stamp]> (store w);
     log := log w ++ [EvInsert (insert_fields text)];
     ticks := ticks w;
     detached := detached w ++ [(new_id, text)] |}.

End Route.

(** ** The status probe, the form and the lesson page *)

Section Pages.

Variable engine : Engine.
Variable env : Env.

(** The body of the status probe's answer. *)
Record StatusBody := {
  ok : bool;
  hasKey : bool;
}.

(** [GET] of the status route: whether a Gemini key is set, never the key. *)
Definition GET : StatusBody :=
  {| ok := true; hasKey := configured (GEMINI_API_KEY env) |}.

(** The state of the home page that [handleGenerate] reads and sets: the
    text area, the button's busy flag, the alerts shown so far, and how often
    the list of lessons has been fetched again. *)
Record PageState := {
  form_outline : jsstring;
  isGenerating : bool;
  alerts : list jsstring;
  refreshes : nat;
}.

Definition modify_page (f : PageState -> PageState) : M (PageState * World) unit :=
  modify (fun pw => (f pw.1, pw.2)).

Definition setIsGenerating (b : bool) (ui : PageState) : PageState :=
  {| form_outline := form_outline ui; isGenerating := b;
     alerts := alerts ui; refreshes := refreshes ui |}.

Definition setOutline (text : jsstring) (ui : PageState) : PageState :=
  {| form_outline := text; isGenerating := isGenerating ui;
     alerts := alerts ui; refreshes := refreshes ui |}.

Definition alert (message : jsstring) (ui : PageState) : PageState :=
  {| form_outline := form_outline ui; isGenerating := isGenerating ui;
     alerts := alerts ui ++ [message]; refreshes := refreshes ui |}.

(** [fetchLessons()], started and not awaited: only the call is recorded. *)
Definition fetchLessons (ui : PageState) : PageState :=
  {| form_outline := form_outline ui; isGenerating := isGenerating ui;
     alerts := alerts ui; refreshes := S (refreshes ui) |}.

(** [response.ok] of the answer of the create endpoint. *)
Definition answer_ok (r : Response) : bool :=
  (200 <=? code r) && (code r <=? 299).

(** [data.error || 'Failed to generate lesson']. *)
Definition answer_error (r : Response) : jsstring :=
  match payload r with
  | ErrorBody (c :: e) => c :: e
  | _ => lit "Failed to generate lesson"
  end.

(** [handleGenerate].  [transport] is the error [fetch] rejects with when
    the request does not reach the server; otherwise the server runs [POST]
    on the body [{ outline }].  The handler of [catch] cannot throw, so the
    [finally] block is the step that follows the [try]. *)
Definition handleGenerate (transport : option exn) : M (PageState * World) unit :=
  ui <- gets fst ;;
  match trim (form_outline ui) with
  | [] => ret tt
  | _ :: _ =>
    modify_page (setIsGenerating true) ;;;
    try_catch
      (response <-
         match transport with
         | Some e => throw e
         | None =>
           lift (POST engine env
                   (inl (JObj [(lit "outline", JStr (form_outline ui))])))
         end ;;
       if negb (answer_ok response) then
         throw (new_Error engine (answer_error response))
       else
         modify_page (setOutline []) ;;;
         modify_page fetchLessons)
      (fun error =>
         modify_page (alert (lit "Failed to generate lesson. Please try again."))) ;;;
    modify_page (setIsGenerating false)
  end.

(** What the lesson page shows below the outline. *)
Inductive Block :=
| Spinner
| FailureNotice
| CodePreview (code : jsstring)
| TraceLog (t : TraceColumn).

(** [LessonPage]: the row with the given id is read; a read that fails or
    finds no row ends in [notFound()], here [None].  Otherwise the page has
    a heading ([lesson.title || 'Lesson']) and the blocks that the status,
    the content and the trace select. *)
Definition LessonPage (select_error : option exn) (st : gmap (list N) Lesson)
    (lessonId : jsstring) : option (jsstring * list Block) :=
  match select_error, st !! lessonId with
  | Some _, _ | None, None => None
  | None, Some lesson =>
    Some (match title lesson with
          | Some (c :: t) => c :: t
          | _ => lit "Lesson"
          end,
          (match status lesson with Generating => [Spinner] | _ => [] end)
          ++ (match status lesson with Failed => [FailureNotice] | _ => [] end)
          ++ (match status lesson, content lesson with
              | Generated, Some (c :: code) => [CodePreview (c :: code)]
              | _, _ => []
              end)
          ++ (match trace lesson with Some t => [TraceLog t] | None => [] end))
  end.

End Pages.

(** ** The specification's reading of the policy and of the record
    invariant *)

(** The decision policy in the specification's words: the secondary
    provider first when it has a credential, the primary provider as its
    nested fallback or on its own, the mock generator last.  The result is
    the adapters attempted, in order, and the final content. *)
Definition decision_policy (secondary_key primary_key : bool)
    (secondary primary : outcome jsstring) (mock_text : jsstring)
    : list Provider * jsstring :=
  if secondary_key then
    match secondary with
    | Return text => ([Helicone], text)
    | Raise _ =>
      if primary_key then
        match primary with
        | Return text => ([Helicone; Gemini], text)
        | Raise _ => ([Helicone; Gemini], mock_text)
        end
      else ([Helicone], mock_text)
    end
  else if primary_key then
    match primary with
    | Return text => ([Gemini], text)
    | Raise _ => ([Gemini], mock_text)
    end
  else ([], mock_text).


(** The record invariant as the specification states it. *)
Definition lesson_invariant_spec (l : Lesson) : Prop :=
  match status l with
  | Generated =>
    (exists c, content l = Some c /\ c <> []) /\ is_Some (trace l)
  | Generating => content l = None
  | Failed => content l = None
  end.

(** The invariant the code keeps: a generated record has a content, which
    may be the empty text. *)
Definition lesson_invariant (l : Lesson) : Prop :=
  match status l with
  | Generated => is_Some (content l) /\ is_Some (trace l)
  | Generating => content l = None
  | Failed => content l = None
  end.

Definition store_invariant (st : gmap (list N) Lesson) : Prop :=
  forall k l, st !! k = Some l -> lesson_invariant l.

(** The last step taken. *)
Definition last_event (w : World) : option Event := last (log w).

(** ** A concrete engine and concrete surroundings, for examples *)

(** Case mapping of the ASCII letters, which is what the built-in does on
    ASCII input. *)
Definition ascii_lower (s : jsstring) : jsstring :=
  map (fun c => if (65 <=? c) && (c <=? 90) then c + 32 else c) s.

Definition sample_type_error_message (te : type_error) : jsstring :=
  match te with
  | ReadOfNullish is_null key =>
    lit "Cannot read properties of "
    ++ (if is_null then lit "null" else lit "undefined")
    ++ lit " (reading '" ++ key ++ lit "')"
  | DestructureNullish key =>
    lit "Cannot destructure property '" ++ key ++ lit "'"
  | NotAFunction method => method ++ lit " is not a function"
  end.

Definition sample_engine : Engine :=
  {| toLowerCase := ascii_lower;
     type_error_message := sample_type_error_message;
     capture_stack := fun message => Some (lit "Error: " ++ message) |}.

(** Surroundings described by the credentials and the providers' replies;
    the store accepts every request, and the clock shows the same instant
    at each reading. *)
Definition sample_env (helicone_key gemini_key : option jsstring)
    (helicone : json + exn) (gemini : FetchResponse + exn)
    (update : jsstring -> UpdateFields -> option exn) : Env :=
  {| HELICONE_API_KEY := helicone_key;
     GEMINI_API_KEY := gemini_key;
     clock := fun _ => lit "2025-01-01T00:00:00.000Z";
     helicone_reply := fun _ => helicone;
     gemini_reply := fun _ => gemini;
     insert_reply := fun _ => inl (lit "lesson-1", lit "2025-01-01T00:00:00.000Z");
     update_reply := update |}.

Definition network_down : exn := ErrorObject (lit "fetch failed") None.

Definition accept_updates : jsstring -> UpdateFields -> option exn :=
  fun _ _ => None.

Definition lesson_1 : jsstring := lit "lesson-1".

Definition topic : jsstring := lit "Photosynthesis quiz".

(** The table with one lesson that has just been created. *)
Definition sample_world : World :=
  {| store := {[ lesson_1 := new_row (insert_fields topic) lesson_1
                               (lit "2025-01-01T00:00:00.000Z") ]};
     log := []; ticks := 0; detached := [] |}.

(** A 200 reply of the Gemini endpoint with one candidate that has one part.
    The raw body text is not read on this path. *)
Definition gemini_text_reply (text : jsstring) : FetchResponse + exn :=
  inl {| http_status := 200;
         body_text := inl [];
         body_json :=
           inl (JObj [(lit "candidates",
                       JArr [JObj [(lit "content",
                                    JObj [(lit "parts",
                                           JArr [JObj [(lit "text", JStr text)]])])]])]) |}.


Definition store_error : exn :=
  ErrorObject (lit "canceling statement due to statement timeout") None.

(** A store that rejects the [Generated] update and accepts the others. *)
Definition reject_generated : jsstring -> UpdateFields -> option exn :=
  fun _ fields =>
    match upd_status fields with
    | Some Generated => Some store_error
    | _ => None
    end.

(** The error object of a statement that ran into the store's timeout. *)
Definition statement_timeout : PostgrestError :=
  {| pg_message := lit "canceling statement due to statement timeout";
     pg_code := lit "57014";
     pg_details := None;
     pg_hint := None |}.

(** A store that rejects the [Generated] update with the given error and
    accepts the others. *)
Definition reject_generated_with (e : exn) : jsstring -> UpdateFields -> option exn :=
  fun _ fields =>
    match upd_status fields with
    | Some Generated => Some e
    | _ => None
    end.

Definition env_no_keys : Env :=
  sample_env None None (inr network_down) (inr network_down) accept_updates.

Definition env_both_fail (update : jsstring -> UpdateFields -> option exn) : Env :=
  sample_env (Some (lit "sk-helicone")) (Some (lit "AIza")) (inr network_down)
    (inr network_down) update.

Definition env_gemini (reply : FetchResponse + exn) : Env :=
  sample_env None (Some (lit "AIza")) (inr network_down) reply accept_updates.


(** Surroundings without credentials whose store rejects every insert. *)
Definition env_insert_fails : Env :=
  {| HELICONE_API_KEY := None;
     GEMINI_API_KEY := None;
     clock := fun _ => lit "2025-01-01T00:00:00.000Z";
     helicone_reply := fun _ => inr network_down;
     gemini_reply := fun _ => inr network_down;
     insert_reply := fun _ => inr store_error;
     update_reply := accept_updates |}.

(** A 503 reply of the Gemini endpoint; its body is read as text only. *)
Definition unavailable : FetchResponse :=
  {| http_status := 503;
     body_text := inl (lit "overloaded");
     body_json := inr network_down |}.

(** The home page at rest, with a text in the text area. *)
Definition page_with (text : jsstring) : PageState :=
  {| form_outline := text; isGenerating := false; alerts := []; refreshes := 0 |}.

(** The body the form sends for [topic]. *)
Definition topic_request : json := JObj [(lit "outline", JStr topic)].

(** * Properties *)

(** ** Title derivation *)

Section Title.

Lemma is_ws_space : is_ws SPACE = true.
Proof. reflexivity. Qed.

Lemma split_nonempty sep s : split sep s <> [].
Proof.
  destruct s as [|c s]; simpl; [done|].
  destruct (c =? sep); [done|]. by destruct (split sep s).
Qed.

(** Splitting at single spaces loses nothing: joining the fields with a
    space gives the outline back. *)
Lemma join_split s : join [SPACE] (split SPACE s) = s.
Proof.
  induction s as [|c s IH]; simpl; [done|].
  destruct (N.eqb_spec c SPACE) as [->|Hc].
  - pose proof (split_nonempty SPACE s) as Hne.
    destruct (split SPACE s) as [|w ws]; [done|].
    simpl in *. by rewrite IH.
  - pose proof (split_nonempty SPACE s) as Hne.
    destruct (split SPACE s) as [|w ws]; [done|].
    destruct ws as [|w' ws]; simpl in *; by rewrite <- IH.
Qed.

(** On a well spaced text the fields of [split] are the words. *)
Lemma split_words_well_spaced s :
  (well_spaced true s = true -> split SPACE s = words_ws s) /\
  (forall c, is_ws c = false -> well_spaced false s = true ->
             split SPACE (c :: s) = words_ws (c :: s)).
Proof.
  induction s as [|d s [IH1 IH2]].
  - split; [done|]. intros c Hc _. simpl. rewrite Hc.
    destruct (N.eqb_spec c SPACE) as [->|]; [done|done].
  - assert (Hstep : forall c, is_ws c = false -> well_spaced false (d :: s) = true ->
                              split SPACE (c :: d :: s) = words_ws (c :: d :: s)).
    { intros c Hc Hs.
      assert (Hcs : (c =? SPACE) = false).
      { destruct (N.eqb_spec c SPACE) as [->|]; [done|done]. }
      change (split SPACE (c :: d :: s))
        with (if c =? SPACE then [] :: split SPACE (d :: s)
              else match split SPACE (d :: s) with
                   | w :: ws => (c :: w) :: ws
                   | [] => [[c]]
                   end).
      change (words_ws (c :: d :: s))
        with (if is_ws c then words_ws (d :: s)
              else if is_ws d then [c] :: words_ws (d :: s)
                   else match words_ws (d :: s) with
                        | w :: ws => (c :: w) :: ws
                        | [] => [[c]]
                        end).
      rewrite Hc, Hcs.
      simpl in Hs. destruct (N.eqb_spec d SPACE) as [->|Hd].
      + simpl in Hs. rewrite is_ws_space.
        change (split SPACE (SPACE :: s)) with ([] :: split SPACE s).
        change (words_ws (SPACE :: s)) with (words_ws s).
        by rewrite (IH1 Hs).
      + apply andb_true_iff in Hs as [Hd' Hs].
        apply negb_true_iff in Hd'. rewrite Hd'.
        by rewrite (IH2 d Hd' Hs). }
    split; [|exact Hstep].
    intros Hs. simpl in Hs.
    destruct (N.eqb_spec d SPACE) as [->|Hd]; [done|].
    apply andb_true_iff in Hs as [Hd' Hs]. apply negb_true_iff in Hd'.
    by apply IH2.
Qed.

Lemma extractTitle_words_agree (o : jsstring) :
  single_spaced o = true ->
  join [SPACE] (slice0 6 (split SPACE o)) = join [SPACE] (take 6 (words_ws o)).
Proof.
  destruct o as [|c o]; [done|].
  intros H. unfold slice0.
  by rewrite (proj1 (split_words_well_spaced (c :: o)) H).
Qed.

End Title.

(** Where the title is the one of the specification.  The title is built
    from the first six fields that [split(' ')] cuts the outline into,
    joined by single spaces.  For an outline whose words are separated by
    exactly one space each (no other whitespace, no leading, trailing or
    doubled space) these are its first six whitespace-separated words.
    Whenever the joined text is longer than 50 code units the title is its
    first 50 code units followed by three dots, and the joined text itself
    otherwise. *)
Theorem extractTitle_single_spaced (o : jsstring) :
  let fields := join [SPACE] (slice0 6 (split SPACE o)) in
  (single_spaced o = true ->
   fields = join [SPACE] (take 6 (words_ws o)) /\
   extractTitle o = title_of_words o) /\
  ((50 < length fields)%nat -> extractTitle o = take 50 fields ++ lit "...") /\
  ((length fields <= 50)%nat -> extractTitle o = fields).
Proof.
  intros fields. split; [|split].
  - intros H. split; [by apply extractTitle_words_agree|].
    unfold extractTitle, title_of_words, substring0.
    by rewrite (extractTitle_words_agree o H).
  - intros H. unfold extractTitle, substring0. fold fields.
    destruct (Nat.ltb_spec 50 (length fields)); [done|lia].
  - intros H. unfold extractTitle. fold fields.
    destruct (Nat.ltb_spec 50 (length fields)); [lia|done].
Qed.

Lemma extractTitle_single_spaced_witness :
  single_spaced (lit "A quiz on Florida history and geography extra words here") = true /\
  extractTitle (lit "A quiz on Florida history and geography extra words here")
  = title_of_words (lit "A quiz on Florida history and geography extra words here") /\
  extractTitle (lit "A quiz on Florida history and geography extra words here")
  = lit "A quiz on Florida history and".
Proof.
  pose proof (extractTitle_single_spaced
    (lit "A quiz on Florida history and geography extra words here"))
    as (Hwords & _ & Hshort).
  split; [by vm_compute|]. split.
  - apply Hwords. by vm_compute.
  - rewrite Hshort; [by vm_compute|]. apply Nat.leb_le. by vm_compute.
Defined.

(** C5.  The code departs from the claim, and from its own comment ("Take
    first 6 words"), at an outline with a doubled space: [split(' ')] cuts
    at every single space, so the doubled space yields an empty field that
    counts as one of the six, and the title holds five words around a
    doubled space where the first six words were to be joined by single
    spaces. *)
Lemma extractTitle_doubled_space :
  extractTitle (lit "a  b c d e f g") = lit "a  b c d e" /\
  title_of_words (lit "a  b c d e f g") = lit "a b c d e f" /\
  extractTitle (lit "a  b c d e f g") <> title_of_words (lit "a  b c d e f g").
Proof. by vm_compute. Qed.

(** C10.  A title has at most 53 code units: exactly 53 when the six-field
    text is longer than 50 (its first 50 and the three dots), and the length
    of that text, at most 50, otherwise. *)
Theorem extractTitle_length_bound (o : jsstring) :
  let words := join [SPACE] (slice0 6 (split SPACE o)) in
  (length (extractTitle o) <= 53)%nat /\
  length (extractTitle o) =
    (if (50 <? length words)%nat then 53 else length words)%nat /\
  extractTitle o =
    (if (50 <? length words)%nat then take 50 words ++ lit "..." else words).
Proof.
  intros words. unfold extractTitle, substring0. fold words.
  destruct (Nat.ltb_spec 50 (length words)) as [Hlt|Hle].
  - rewrite length_app, length_take.
    change (length (lit "...")) with 3%nat. repeat split; lia.
  - repeat split; lia.
Qed.

(** ** More on titles *)

Section TitleShape.

Lemma join_take_prefix (sep : jsstring) (l : list jsstring) (n : nat) :
  exists rest, join sep l = join sep (take n l) ++ rest.
Proof.
  revert n. induction l as [|w ws IH]; intros n.
  - exists []. by destruct n.
  - destruct n as [|n]; [by eexists|].
    destruct ws as [|w' ws'].
    + exists []. simpl. by rewrite take_nil, app_nil_r.
    + destruct (IH n) as [rest Hrest].
      destruct n as [|n].
      * eexists. simpl. reflexivity.
      * exists rest.
        change (join sep (w :: w' :: ws')) with (w ++ sep ++ join sep (w' :: ws')).
        change (take (S (S n)) (w :: w' :: ws')) with (w :: w' :: take n ws').
        change (join sep (w :: w' :: take n ws'))
          with (w ++ sep ++ join sep (take (S n) (w' :: ws'))).
        rewrite Hrest. by rewrite <- !app_assoc.
Qed.

Lemma split_length s :
  length (split SPACE s) = S (length (filter (fun c => c = SPACE) s)).
Proof.
  induction s as [|c s IH]; [done|]. simpl.
  destruct (N.eqb_spec c SPACE) as [->|Hc].
  - rewrite filter_cons_True by done. simpl. by rewrite IH.
  - rewrite filter_cons_False by done.
    pose proof (split_nonempty SPACE s).
    destruct (split SPACE s); [done|]. simpl in *. done.
Qed.

Lemma join_nil_inv (sep : jsstring) (l : list jsstring) :
  sep <> [] -> join sep l = [] -> l = [] \/ l = [[]].
Proof.
  intros Hsep. destruct l as [|w [|w' ws]]; simpl; [by left| |].
  - intros ->. by right.
  - intros H. apply app_eq_nil in H as [_ H].
    apply app_eq_nil in H as [H _]. done.
Qed.

End TitleShape.

(** X1.  A title is a prefix of the outline, or the first 50 code units of
    the outline followed by three dots. *)
Theorem extractTitle_prefix (o : jsstring) :
  exists p rest,
    o = p ++ rest /\
    (extractTitle o = p \/ (length p = 50%nat /\ extractTitle o = p ++ lit "...")).
Proof.
  destruct (join_take_prefix [SPACE] (split SPACE o) 6) as [rest Hrest].
  rewrite join_split in Hrest.
  unfold extractTitle, slice0, substring0.
  set (fields := join [SPACE] (take 6 (split SPACE o))) in *.
  destruct (Nat.ltb_spec 50 (length fields)) as [Hlong|Hshort].
  - exists (take 50 fields), (drop 50 fields ++ rest). split.
    + by rewrite app_assoc, take_drop.
    + right. split; [|done]. rewrite length_take. lia.
  - exists fields, rest. by split; [|left].
Qed.

(** X2.  An outline with fewer than six spaces and at most 50 code units is
    its own title. *)
Theorem extractTitle_short_outline (o : jsstring) :
  (length (filter (fun c => c = SPACE) o) < 6)%nat ->
  (length o <= 50)%nat ->
  extractTitle o = o.
Proof.
  intros Hspaces Hlen. unfold extractTitle, slice0.
  rewrite take_ge by (rewrite split_length; lia).
  rewrite join_split.
  by destruct (Nat.ltb_spec 50 (length o)); [lia|].
Qed.

Lemma extractTitle_short_outline_witness :
  extractTitle (lit "A quiz on Florida history") = lit "A quiz on Florida history".
Proof.
  apply extractTitle_short_outline.
  - apply Nat.ltb_lt. by vm_compute.
  - apply Nat.leb_le. by vm_compute.
Defined.

(** An empty title comes from the empty outline only. *)
Lemma extractTitle_nil_inv (o : jsstring) : extractTitle o = [] -> o = [].
Proof.
  unfold extractTitle, slice0, substring0.
  set (fields := join [SPACE] (take 6 (split SPACE o))).
  destruct (Nat.ltb_spec 50 (length fields)) as [Hlong|Hshort].
  - intros H. apply app_eq_nil in H as [_ H]. by vm_compute in H.
  - intros H. subst fields.
    pose proof (split_nonempty SPACE o) as Hne.
    pose proof (join_split o) as Hjoin.
    destruct (split SPACE o) as [|f fs]; [done|].
    apply join_nil_inv in H; [|done].
    destruct H as [H|H]; [done|].
    destruct fs as [|g fs]; [|done].
    simpl in H. injection H as ->. by rewrite <- Hjoin.
Qed.

(** X3.  Only the empty outline has an empty title. *)
Theorem extractTitle_empty_iff (o : jsstring) :
  extractTitle o = [] <-> o = [].
Proof.
  split; [apply extractTitle_nil_inv|by intros ->].
Qed.


(** ** The clean-up of generated text *)

Section CleanUp.

Lemma starts_with_spec (p s : jsstring) :
  starts_with p s = true <-> exists b, s = p ++ b.
Proof.
  revert s. induction p as [|a p IH]; intros s.
  - split; [by exists s|done].
  - destruct s as [|c s]; simpl.
    + split; [done|]. by intros [b Hb].
    + rewrite andb_true_iff, N.eqb_eq, IH. split.
      * intros [-> [b ->]]. by exists b.
      * intros [b [= -> ->]]. split; [done|by exists b].
Qed.

Lemma starts_with_cons (a c : N) (p s : jsstring) :
  starts_with (a :: p) (c :: s) = (a =? c) && starts_with p s.
Proof. done. Qed.

Lemma includes_unfold (p s : jsstring) :
  includes p s
  = starts_with p s || match s with [] => false | _ :: s' => includes p s' end.
Proof. by destruct s. Qed.

Lemma includes_spec (p s : jsstring) :
  includes p s = true <-> exists a b, s = a ++ p ++ b.
Proof.
  split.
  - induction s as [|c s IH]; rewrite includes_unfold, orb_true_iff.
    + intros [H|H]; [|done]. apply starts_with_spec in H as [b ->]. by exists [], b.
    + intros [H|H].
      * apply starts_with_spec in H as [b ->]. by exists [], b.
      * destruct (IH H) as (a & b & ->). by exists (c :: a), b.
  - intros (a & b & ->). induction a as [|c a IH].
    + rewrite includes_unfold. apply orb_true_iff. left.
      apply starts_with_spec. by exists b.
    + rewrite includes_unfold. apply orb_true_iff. by right.
Qed.

Lemma includes_infix (p a x b : jsstring) :
  includes p (a ++ x ++ b) = false -> includes p x = false.
Proof.
  intros H. destruct (includes p x) eqn:Hx; [|done].
  apply includes_spec in Hx as (a' & b' & ->).
  rewrite <- H. symmetry. apply includes_spec.
  exists (a ++ a'), (b' ++ b). by rewrite <- !app_assoc.
Qed.

Lemma includes_longer (p q s : jsstring) :
  includes p s = false -> includes (p ++ q) s = false.
Proof.
  intros H. destruct (includes (p ++ q) s) eqn:Hx; [|done].
  apply includes_spec in Hx as (a & b & ->).
  rewrite <- H. symmetry. apply includes_spec.
  exists a, (q ++ b). by rewrite <- !app_assoc.
Qed.

Lemma remove_all_from_drop (k : nat) (pat s : jsstring) :
  remove_all_from k pat s = remove_all_from 0 pat (drop k s).
Proof.
  revert k. induction s as [|c s IH]; intros k.
  - by destruct k.
  - destruct k as [|k]; [done|]. simpl. apply IH.
Qed.

Lemma remove_all_from_absent (pat s : jsstring) :
  includes pat s = false -> remove_all_from 0 pat s = s.
Proof.
  induction s as [|c s IH]; [done|].
  rewrite includes_unfold. intros H. apply orb_false_iff in H as [Hhere Hrest].
  simpl remove_all_from. rewrite Hhere. by rewrite IH.
Qed.

Lemma remove_all_absent (pat s : jsstring) :
  includes pat s = false -> remove_all pat s = s.
Proof.
  intros H. destruct pat; [done|]. by apply remove_all_from_absent.
Qed.

(** Removing every fence leaves none: the scan is leftmost, so the units it
    keeps around a removed match cannot line up into a new one. *)
Lemma remove_fences_invariant (s : jsstring) (k : nat) :
  let kept := remove_all_from 0 [96; 96; 96] (drop k s) in
  includes [96; 96; 96] kept = false /\
  (starts_with [96] kept = true -> starts_with [96] (drop k s) = true) /\
  (starts_with [96; 96] kept = true -> starts_with [96; 96] (drop k s) = true).
Proof.
  revert k. induction s as [|c s IH]; intros k.
  - by rewrite drop_nil.
  - destruct k as [|k]; [|apply IH].
    change (drop 0 (c :: s)) with (c :: s). cbv zeta.
    destruct (starts_with [96; 96; 96] (c :: s)) eqn:Hmatch.
    + assert (Hkept : exists n, remove_all_from 0 [96; 96; 96] (c :: s)
                                = remove_all_from 0 [96; 96; 96] (drop n s)).
      { cbn [remove_all_from]. rewrite Hmatch.
        eexists. apply remove_all_from_drop. }
      destruct Hkept as [n ->].
      apply starts_with_spec in Hmatch as [b Hb]. rewrite Hb.
      split; [apply IH|]. by split.
    + assert (Hkept : remove_all_from 0 [96; 96; 96] (c :: s)
                      = c :: remove_all_from 0 [96; 96; 96] s).
      { cbn [remove_all_from]. by rewrite Hmatch. }
      rewrite Hkept.
      destruct (IH 0%nat) as (Hnone & Hone & Htwo).
      change (drop 0 s) with s in *. cbv zeta in *.
      split; [|split].
      * rewrite includes_unfold, Hnone, orb_false_r.
        destruct (starts_with [96; 96; 96] (c :: remove_all_from 0 [96; 96; 96] s))
          eqn:Hbad; [|done].
        rewrite starts_with_cons in Hbad, Hmatch.
        apply andb_true_iff in Hbad as [Hc Hrest].
        specialize (Htwo Hrest). by rewrite Hc, Htwo in Hmatch.
      * rewrite !starts_with_cons. by rewrite !andb_true_r.
      * rewrite !(starts_with_cons 96 c). intros H.
        apply andb_true_iff in H as [Hc Hrest].
        rewrite Hc. by apply Hone.
Qed.

Lemma remove_fences_none (s : jsstring) :
  includes (lit "```") (remove_all (lit "```") s) = false.
Proof. apply (remove_fences_invariant s 0). Qed.

Lemma trim_start_suffix (s : jsstring) : exists a, s = a ++ trim_start s.
Proof.
  induction s as [|c s [a IH]]; [by exists []|]. simpl.
  destruct (is_ws c); [|by exists []].
  exists (c :: a). simpl. by rewrite <- IH.
Qed.

Lemma trim_start_head (s : jsstring) (x : N) :
  head (trim_start s) = Some x -> is_ws x = false.
Proof.
  induction s as [|c s IH]; [done|]. simpl.
  destruct (is_ws c) eqn:Hc; [done|]. by intros [= <-].
Qed.

Lemma trim_start_fixed (s : jsstring) :
  (forall x, head s = Some x -> is_ws x = false) -> trim_start s = s.
Proof.
  destruct s as [|c s]; [done|]. simpl. intros H. by rewrite (H c).
Qed.

Lemma last_rev (l : jsstring) : last (rev l) = head l.
Proof. destruct l as [|x l]; [done|]. simpl. apply last_snoc. Qed.

Lemma head_rev (l : jsstring) : head (rev l) = last l.
Proof. by rewrite <- (last_rev (rev l)), rev_involutive. Qed.

Lemma trim_infix (s : jsstring) : exists a b, s = a ++ trim s ++ b.
Proof.
  unfold trim. destruct (trim_start_suffix s) as [a Ha].
  destruct (trim_start_suffix (rev (trim_start s))) as [b Hb].
  exists a, (rev b). rewrite <- rev_app_distr, <- Hb, rev_involutive. exact Ha.
Qed.

Lemma trim_ends (s : jsstring) :
  (forall x, head (trim s) = Some x -> is_ws x = false) /\
  (forall x, last (trim s) = Some x -> is_ws x = false).
Proof.
  unfold trim. split; intros x Hx.
  - destruct (trim_start_suffix (rev (trim_start s))) as [b Hb].
    apply (f_equal (@rev N)) in Hb. rewrite rev_involutive, rev_app_distr in Hb.
    apply (trim_start_head s x). rewrite Hb.
    destruct (rev (trim_start (rev (trim_start s)))); [done|exact Hx].
  - rewrite last_rev in Hx. by apply trim_start_head in Hx.
Qed.

Lemma trim_fixed (s : jsstring) :
  (forall x, head s = Some x -> is_ws x = false) ->
  (forall x, last s = Some x -> is_ws x = false) ->
  trim s = s.
Proof.
  intros Hhead Hlast. unfold trim. rewrite (trim_start_fixed s Hhead).
  rewrite trim_start_fixed; [apply rev_involutive|].
  intros x. rewrite head_rev. apply Hlast.
Qed.

End CleanUp.

(** The cleaned text holds no fence marker. *)
Lemma strip_fences_no_fence (s : jsstring) :
  includes (lit "```") (strip_fences s) = false.
Proof.
  unfold strip_fences.
  destruct (trim_infix (remove_all (lit "```")
              (remove_all (lit "```ts") (remove_all (lit "```typescript") s))))
    as (a & b & Hab).
  apply (includes_infix _ a _ b). rewrite <- Hab. apply remove_fences_none.
Qed.

(** The cleaned text is trimmed. *)
Lemma strip_fences_trimmed (s : jsstring) :
  trim (strip_fences s) = strip_fences s.
Proof.
  unfold strip_fences. apply trim_fixed; apply trim_ends.
Qed.

(** The three removals change nothing in a text without fence marker. *)
Lemma remove_fences_absent (s : jsstring) :
  includes (lit "```") s = false ->
  remove_all (lit "```")
    (remove_all (lit "```ts") (remove_all (lit "```typescript") s)) = s.
Proof.
  intros Hnone.
  rewrite (remove_all_absent (lit "```typescript") s)
    by apply (includes_longer (lit "```") (lit "typescript") s Hnone).
  rewrite (remove_all_absent (lit "```ts") s)
    by apply (includes_longer (lit "```") (lit "ts") s Hnone).
  by apply remove_all_absent.
Qed.

(** X4.  Whatever the text, the cleaned text holds no fence marker and
    neither starts nor ends with whitespace. *)
Theorem strip_fences_clean (s : jsstring) :
  includes (lit "```") (strip_fences s) = false /\
  (forall x, head (strip_fences s) = Some x -> is_ws x = false) /\
  (forall x, last (strip_fences s) = Some x -> is_ws x = false).
Proof.
  split; [apply strip_fences_no_fence|]. unfold strip_fences. apply trim_ends.
Qed.

(** X5.  A text that holds no fence marker and is already trimmed passes
    the clean-up unchanged. *)
Theorem strip_fences_fixed (s : jsstring) :
  includes (lit "```") s = false ->
  trim s = s ->
  strip_fences s = s.
Proof.
  intros Hnone Htrim. unfold strip_fences. by rewrite remove_fences_absent.
Qed.

(** X6.  Cleaning twice is cleaning once, for every text. *)
Theorem strip_fences_idempotent (s : jsstring) :
  strip_fences (strip_fences s) = strip_fences s.
Proof.
  unfold strip_fences at 1.
  rewrite remove_fences_absent by apply strip_fences_no_fence.
  apply strip_fences_trimmed.
Qed.

(** ** The adapters and the orchestrator *)

Section RouteProperties.

Variable engine : Engine.
Variable env : Env.

Lemma add_events_nil w : add_events [] w = w.
Proof. destruct w. unfold add_events. simpl. by rewrite app_nil_r. Qed.

Lemma bind_ret_l {S A B} (a : A) (k : A -> M S B) : bind (ret a) k = k a.
Proof. done. Qed.

Lemma bind_throw_l {S A B} e (k : A -> M S B) : bind (@throw S A e) k = throw e.
Proof. done. Qed.

(** A property read returns, on a value that is not nullish, or throws, on
    one that is; it touches nothing. *)
Lemma read_cases v k :
  (exists x, (get_prop v (lit k) = inl x /\ nullish v = false) /\
             forall S, @read engine S v k = ret x) \/
  (exists e, nullish v = true /\ forall S, @read engine S v k = throw e).
Proof.
  unfold read. destruct v as [[]|]; simpl; eauto;
    match goal with |- context [if ?d then _ else _] => destruct d end; eauto.
Qed.

Lemma read_ok v k x S :
  get_prop v (lit k) = inl x -> @read engine S v k = ret x.
Proof. unfold read. by intros ->. Qed.


Lemma get_prop_not_nullish v k x : get_prop v k = inl x -> nullish v = false.
Proof. by destruct v as [[]|]. Qed.

Lemma string_receiver_cases v k :
  (exists x, v = Some (JStr x) /\ forall S, @string_receiver engine S v k = ret x) \/
  (exists e, (forall x, v <> Some (JStr x)) /\
             forall S, @string_receiver engine S v k = throw e).
Proof.
  unfold string_receiver. destruct v as [[]|]; eauto.
Qed.

Lemma await_cases {A} (r : A + exn) :
  (exists x, r = inl x /\ forall S, @await S A r = ret x) \/
  (exists e, r = inr e /\ forall S, @await S A r = throw e).
Proof. destruct r; eauto. Qed.

Lemma adapter_fails_after ev e :
  adapter_run (lift (emit ev) ;;; throw e) [ev].
Proof. apply (adapter_fails _ _ e). by intros t w. Qed.

(** One step through an adapter's body: the next read, call or awaited
    promise either goes on or throws.  An outcome already met is reused. *)
Ltac step_with lem S :=
  first
    [ match goal with
      | H : forall S', _ = _ |- _ => rewrite !(H S)
      end
    | let x := fresh "x" in
      let e := fresh "e" in
      let H := fresh "H" in
      let N := fresh "N" in
      destruct lem as [[x [N H]]|[e [N H]]]; rewrite !(H S) ];
  rewrite ?bind_ret_l, ?bind_throw_l.

Ltac step_read :=
  match goal with
  | |- context [@read _ ?S ?v ?k] => step_with (read_cases v k) S
  | |- context [@string_receiver _ ?S ?v ?k] =>
    step_with (string_receiver_cases v k) S
  | |- context [@await ?S _ ?r] => step_with (await_cases r) S
  end.

Ltac walk :=
  repeat first
    [ step_read
    | match goal with
      | |- context [if ?b then _ else _] =>
        destruct b eqn:?; rewrite ?bind_ret_l, ?bind_throw_l
      end ].

(** The facts gathered on the way contradict each other when a read throws
    on a value that an earlier read went through. *)
Ltac absurd_reads :=
  repeat match goal with
         | H : _ /\ _ |- _ => destruct H
         end;
  congruence.

Lemma generateWithHelicone_run p :
  adapter_run (generateWithHelicone engine env p) [EvAttempt Helicone p].
Proof.
  unfold generateWithHelicone.
  walk; try absurd_reads;
    first [ apply adapter_fails_after
          | eapply adapter_returns; intros t w; reflexivity ].
Qed.

Lemma generateWithGemini_run p :
  adapter_run (generateWithGemini engine env p) [EvAttempt Gemini p].
Proof.
  unfold generateWithGemini, orM.
  walk; try absurd_reads;
    first [ apply adapter_fails_after
          | eapply adapter_returns; intros t w; reflexivity ].
Qed.

Lemma adapter_probe m evs :
  adapter_run m evs ->
  (exists e, probe m = (Raise e, blank_trace) /\
             forall t w, m (t, w) = (Raise e, (t, add_events evs w))) \/
  (exists c tb, probe m = (Return c, tb) /\ output tb = Some c /\
             forall t w, m (t, w) = (Return c, (adopt tb t, add_events evs w))).
Proof.
  intros [e H|c md H].
  - left. exists e. split; [|exact H]. unfold probe. by rewrite H.
  - right. exists c, (filled c md blank_trace). split; [|split].
    + unfold probe. by rewrite H.
    + done.
    + intros t w. by rewrite H.
Qed.

(** What an adapter returns or throws does not depend on the state it is
    called in. *)
Lemma generateWithHelicone_outcome outline t w :
  (generateWithHelicone engine env (sent_prompt engine outline) (t, w)).1
  = helicone_outcome engine env outline.
Proof.
  unfold helicone_outcome.
  destruct (adapter_probe _ _ (generateWithHelicone_run (sent_prompt engine outline)))
    as [(e & -> & H)|(c & tb & -> & _ & H)]; by rewrite H.
Qed.

Lemma generateWithGemini_outcome outline t w :
  (generateWithGemini engine env (sent_prompt engine outline) (t, w)).1
  = gemini_outcome engine env outline.
Proof.
  unfold gemini_outcome.
  destruct (adapter_probe _ _ (generateWithGemini_run (sent_prompt engine outline)))
    as [(e & -> & H)|(c & tb & -> & _ & H)]; by rewrite H.
Qed.

Section Run.

#[local] Opaque lit generateMockLesson easter_egg_prompt normal_prompt includes.

(** The orchestrator always returns, and what it leaves behind is
    [expected_run]. *)
Lemma generateLessonContent_run lessonId outline w :
  generateLessonContent engine env lessonId outline w
  = (Return tt, expected_run engine env lessonId outline w).
Proof.
  unfold generateLessonContent, expected_run, run_chain, run_content, run_trace,
    chosen.
  fold (is_easter_egg engine outline). fold (sent_prompt engine outline).
  destruct (adapter_probe _ _ (generateWithHelicone_run (sent_prompt engine outline)))
    as [(eh & -> & Hh)|(ch & tbh & -> & _ & Hh)];
  destruct (adapter_probe _ _ (generateWithGemini_run (sent_prompt engine outline)))
    as [(eg & -> & Hg)|(cg & tbg & -> & _ & Hg)];
  destruct (configured (HELICONE_API_KEY env)), (configured (GEMINI_API_KEY env));
  unfold try_catch, bind, now, with_object, gets, modify_trace, modify, ret, throw,
    lift, supabase_update, emit, set_store, updated; simpl;
  rewrite ?Hh, ?Hg; simpl; rewrite ?Hg; simpl.
  all: unfold generated_fields, failed_fields, mocked, as_helicone, as_gemini,
         mock_content, initial_trace, add_events, bind, modify, ret, throw; simpl.
  all: repeat match goal with
       | |- context [update_reply env ?a ?b] =>
         destruct (update_reply env a b) eqn:?; simpl
       end.
  all: rewrite <- ?app_assoc; simpl; reflexivity.
Qed.

End Run.

Lemma generateLessonContent_returns lessonId outline w :
  (generateLessonContent engine env lessonId outline w).1 = Return tt.
Proof. by rewrite generateLessonContent_run. Qed.

(** The steps of a run: the attempts, the [Generated] update, and the
    [Failed] update when the store rejected the former. *)
Lemma generateLessonContent_log lessonId outline w :
  let fields :=
    generated_fields (run_content engine env outline w) (run_trace engine env outline w) in
  log (generateLessonContent engine env lessonId outline w).2
  = log w
    ++ map (fun p => EvAttempt p (sent_prompt engine outline)) (run_chain engine env outline w)
    ++ EvUpdate lessonId fields :: failure_tail env lessonId fields w.
Proof.
  intros fields. rewrite generateLessonContent_run.
  unfold expected_run, failure_tail. fold fields.
  by destruct (update_reply env lessonId fields).
Qed.

Lemma last_event_app_cons w evs ev tail :
  log w = evs ++ ev :: tail ->
  last_event w = Some (default ev (last tail)).
Proof.
  unfold last_event. intros ->. rewrite last_app, last_cons.
  by destruct (last tail).
Qed.

Lemma chain_NoDup : NoDup [Helicone; Gemini].
Proof.
  apply NoDup_cons. split; [|apply NoDup_singleton].
  intros H. apply list_elem_of_singleton in H. discriminate.
Qed.

(** The code's choice of attempts and content is the specification's
    policy. *)
Lemma chosen_decision_policy outline t0 :
  (chosen engine env outline t0).1
  = decision_policy (configured (HELICONE_API_KEY env)) (configured (GEMINI_API_KEY env))
      (helicone_outcome engine env outline) (gemini_outcome engine env outline)
      (mock_content engine outline).
Proof.
  unfold chosen, decision_policy, helicone_outcome, gemini_outcome.
  destruct (configured (HELICONE_API_KEY env)), (configured (GEMINI_API_KEY env));
    destruct (probe (generateWithHelicone engine env (sent_prompt engine outline)))
      as [[ch|eh] tbh];
    destruct (probe (generateWithGemini engine env (sent_prompt engine outline)))
      as [[cg|eg] tbg]; reflexivity.
Qed.

(** C1.  One run follows the priority chain of the specification: with a
    Helicone credential the Helicone adapter is attempted first, on its
    failure the Gemini adapter when it has a credential, and the mock
    generator last; with only a Gemini credential the Gemini adapter and
    then the mock generator; with no credential the mock generator alone.
    The attempts are logged one after the other, a later one only after the
    earlier one has failed, the content of the [Generated] update is the
    policy's, and nothing is attempted after that update.  Whether an
    adapter fails does not depend on the state it is called in. *)
Theorem generateLessonContent_decision_policy lessonId outline w :
  let plan :=
    decision_policy (configured (HELICONE_API_KEY env)) (configured (GEMINI_API_KEY env))
      (helicone_outcome engine env outline) (gemini_outcome engine env outline)
      (generateMockLesson outline (is_easter_egg engine outline)) in
  let w' := (generateLessonContent engine env lessonId outline w).2 in
  exists (t : Trace) (rest : list Event),
    log w' = log w
             ++ map (fun p => EvAttempt p (sent_prompt engine outline)) plan.1
             ++ EvUpdate lessonId (generated_fields plan.2 t) :: rest
    /\ Forall (fun ev => forall p q, ev <> EvAttempt p q) rest
    /\ (length plan.1 <= 2)%nat /\ NoDup plan.1
    /\ (forall t0 w0,
          (generateWithHelicone engine env (sent_prompt engine outline) (t0, w0)).1
          = helicone_outcome engine env outline)
    /\ (forall t0 w0,
          (generateWithGemini engine env (sent_prompt engine outline) (t0, w0)).1
          = gemini_outcome engine env outline).
Proof.
  intros plan w'. subst w'.
  exists (run_trace engine env outline w).
  exists (failure_tail env lessonId
            (generated_fields (run_content engine env outline w)
                              (run_trace engine env outline w)) w).
  assert (Hplan : plan = (run_chain engine env outline w, run_content engine env outline w)).
  { subst plan. unfold run_chain, run_content.
    fold (mock_content engine outline).
    rewrite <- (chosen_decision_policy outline
                 (initial_trace outline (clock env (ticks w)))).
    by destruct (chosen engine env outline _) as [[? ?] ?]. }
  split; [|split].
  - rewrite Hplan. apply generateLessonContent_log.
  - unfold failure_tail. destruct (update_reply env lessonId _); repeat constructor; done.
  - assert (Hshape : (length plan.1 <= 2)%nat /\ NoDup plan.1).
    { clear Hplan. subst plan. unfold decision_policy.
      destruct (configured (HELICONE_API_KEY env)), (configured (GEMINI_API_KEY env)),
        (helicone_outcome engine env outline), (gemini_outcome engine env outline);
        simpl; (split; [lia|]);
        first [apply NoDup_nil_2 | apply NoDup_singleton | apply chain_NoDup]. }
    destruct Hshape as [Hlen Hdup].
    split; [exact Hlen|]. split; [exact Hdup|].
    split; intros t0 w0;
      [apply generateWithHelicone_outcome|apply generateWithGemini_outcome].
Qed.

(** The orchestrator returns normally on every input.  When the store
    accepts the [Generated] update that update is its last step; when the
    store reports an error [e] for it, the last step is an update that sets
    the status to [Failed] with a trace holding [error_text e] (the message
    of an instance of [Error], the [String(...)] image of any other value),
    [error_stack e] and a timestamp, and a store that accepts this update
    leaves the record [Failed] with that trace. *)
Theorem generateLessonContent_never_throws lessonId outline w :
  let run := generateLessonContent engine env lessonId outline w in
  let fields :=
    generated_fields (run_content engine env outline w) (run_trace engine env outline w) in
  run.1 = Return tt /\
  match update_reply env lessonId fields with
  | None => last_event run.2 = Some (EvUpdate lessonId fields)
  | Some e =>
    let failed :=
      {| upd_content := None;
         upd_status := Some Failed;
         upd_trace := Some (FailureTrace (error_text e) (error_stack e)
                                         (clock env (S (ticks w)))) |} in
    last_event run.2 = Some (EvUpdate lessonId failed) /\
    (update_reply env lessonId failed = None ->
     forall l, store w !! lessonId = Some l ->
       exists l', store run.2 !! lessonId = Some l' /\
                  status l' = Failed /\
                  trace l' = Some (FailureTrace (error_text e) (error_stack e)
                                                (clock env (S (ticks w)))))
  end.
Proof.
  intros run fields. split; [apply generateLessonContent_returns|].
  pose proof (generateLessonContent_log lessonId outline w) as Hlog.
  cbv zeta in Hlog. fold fields in Hlog. fold run in Hlog.
  unfold failure_tail in Hlog.
  destruct (update_reply env lessonId fields) as [e|] eqn:Hreply.
  - split.
    + rewrite app_assoc in Hlog. by rewrite (last_event_app_cons _ _ _ _ Hlog).
    + intros Hok l Hl. subst run. rewrite generateLessonContent_run.
      unfold expected_run. fold fields. rewrite Hreply. simpl.
      unfold updated, failed_fields. rewrite Hok.
      rewrite lookup_alter_eq, Hl. simpl. eauto.
  - rewrite app_assoc in Hlog. by rewrite (last_event_app_cons _ _ _ _ Hlog).
Qed.

(** C3 (as amended).  When both credentials are configured and both
    adapters fail, the update that follows the two attempts sets the status
    to [Generated], with the mock generator's text as content and a trace
    whose [mock] is true and whose [fallback_reason] is the message of the
    Gemini adapter's error; it is the terminal update when the store accepts
    it. *)
Theorem both_adapters_fail lessonId outline w e1 e2 :
  configured (HELICONE_API_KEY env) = true ->
  configured (GEMINI_API_KEY env) = true ->
  helicone_outcome engine env outline = Raise e1 ->
  gemini_outcome engine env outline = Raise e2 ->
  let w' := (generateLessonContent engine env lessonId outline w).2 in
  exists t,
    let fields :=
      {| upd_content := Some (generateMockLesson outline (is_easter_egg engine outline));
         upd_status := Some Generated;
         upd_trace := Some (RunTrace t) |} in
    mock t = Some true /\
    fallback_reason t = Some (error_text e2) /\
    output t = Some (generateMockLesson outline (is_easter_egg engine outline)) /\
    log w' = log w
             ++ [EvAttempt Helicone (sent_prompt engine outline);
                 EvAttempt Gemini (sent_prompt engine outline);
                 EvUpdate lessonId fields]
             ++ failure_tail env lessonId fields w /\
    (update_reply env lessonId fields = None ->
     last_event w' = Some (EvUpdate lessonId fields)).
Proof.
  intros Hh Hg H1 H2 w'.
  pose proof (generateLessonContent_log lessonId outline w) as Hlog.
  cbv zeta in Hlog. fold w' in Hlog.
  set (t := mocked engine outline (Some e2)
              (as_gemini (as_helicone (initial_trace outline (clock env (ticks w)))))).
  assert (Hchosen : chosen engine env outline (initial_trace outline (clock env (ticks w)))
                    = ([Helicone; Gemini], mock_content engine outline, t)).
  { unfold chosen. rewrite Hh, Hg.
    unfold helicone_outcome in H1. unfold gemini_outcome in H2.
    destruct (probe (generateWithHelicone engine env (sent_prompt engine outline)))
      as [rh tbh]; simpl in H1; subst rh.
    destruct (probe (generateWithGemini engine env (sent_prompt engine outline)))
      as [rg tbg]; simpl in H2; subst rg.
    reflexivity. }
  unfold run_chain, run_content, run_trace in Hlog. rewrite Hchosen in Hlog.
  exists t. split; [|split; [|split; [|split]]]; [done|done|done|exact Hlog|].
  intros Hok.
  change (update_reply env lessonId
            (generated_fields (mock_content engine outline) t) = None) in Hok.
  unfold failure_tail in Hlog. cbn [fst snd] in Hlog. rewrite Hok in Hlog.
  rewrite app_assoc in Hlog.
  by rewrite (last_event_app_cons _ _ _ _ Hlog).
Qed.

Section Prompts.

#[local] Opaque toLowerCase includes.

(** The text kept in the trace and the text sent differ from their twelfth
    code unit on, whatever the outline. *)
Lemma recorded_prompt_differs outline :
  lit "Generate a TypeScript educational module for: " ++ outline
  <> sent_prompt engine outline.
Proof.
  intros H. apply (f_equal (take 12)) in H. revert H.
  unfold sent_prompt. destruct (is_easter_egg engine outline); by vm_compute.
Qed.

End Prompts.

Lemma chosen_prompt outline t0 :
  prompt (chosen engine env outline t0).2 = prompt t0.
Proof.
  unfold chosen.
  destruct (configured (HELICONE_API_KEY env)), (configured (GEMINI_API_KEY env));
    destruct (probe (generateWithHelicone engine env (sent_prompt engine outline)))
      as [[ch|eh] tbh];
    destruct (probe (generateWithGemini engine env (sent_prompt engine outline)))
      as [[cg|eg] tbg]; reflexivity.
Qed.

Lemma attempts_logged lessonId outline w p :
  p ∈ run_chain engine env outline w ->
  EvAttempt p (sent_prompt engine outline)
  ∈ log (generateLessonContent engine env lessonId outline w).2.
Proof.
  intros Hp. rewrite generateLessonContent_log.
  rewrite !elem_of_app. right. left.
  apply list_elem_of_fmap. by exists p.
Qed.

(** C8 (as amended).  The [prompt] field of the trace written with the
    [Generated] update is always the text "Generate a TypeScript educational
    module for: " followed by the outline.  Every adapter attempted is sent
    the easter-egg or the normal template instead, and the two texts are
    never equal. *)
Theorem trace_prompt_is_summary lessonId outline w :
  let t := run_trace engine env outline w in
  let fields := generated_fields (run_content engine env outline w) t in
  let w' := (generateLessonContent engine env lessonId outline w).2 in
  log w' = log w
           ++ map (fun p => EvAttempt p (sent_prompt engine outline))
                  (run_chain engine env outline w)
           ++ EvUpdate lessonId fields :: failure_tail env lessonId fields w /\
  upd_trace fields = Some (RunTrace t) /\
  prompt t = lit "Generate a TypeScript educational module for: " ++ outline /\
  Forall (fun p => EvAttempt p (sent_prompt engine outline) ∈ log w')
         (run_chain engine env outline w) /\
  sent_prompt engine outline
  = (if is_easter_egg engine outline then easter_egg_prompt else normal_prompt outline) /\
  prompt t <> sent_prompt engine outline.
Proof.
  intros t fields w'.
  assert (Hp : prompt t = lit "Generate a TypeScript educational module for: " ++ outline).
  { subst t. unfold run_trace. by rewrite chosen_prompt. }
  split; [apply generateLessonContent_log|].
  split; [done|].
  split; [exact Hp|].
  split; [apply Forall_forall; intros p Hin; by apply attempts_logged|].
  split; [done|].
  rewrite Hp. apply recorded_prompt_differs.
Qed.


(** *** The create endpoint *)

(** Every JSON value but [null] can be destructured, and [null] cannot. *)
Lemma get_prop_readable (parsed : json) (k : jsstring) :
  parsed <> JNull -> exists v, get_prop (Some parsed) k = inl v.
Proof.
  intros Hparsed. destruct parsed as [|b|x|s|items|members]; simpl; try done;
    try destruct (decide _); by eexists.
Qed.

Lemma get_prop_of_null (k : jsstring) :
  get_prop (Some JNull) k = inr (ReadOfNullish true k).
Proof. reflexivity. Qed.

Section Endpoint.

#[local] Opaque get_prop lit.

(** The three ways [POST] ends: it answers with an error and has asked the
    store for nothing; the store rejected the insert; or the row was created
    and the generation dispatched. *)
Lemma POST_cases request w :
  (exists resp, POST engine env request w = (Return resp, w) /\
                (code resp = 400 \/ code resp = 500)) \/
  (exists text e, text <> [] /\
     insert_reply env (insert_fields text) = inr e /\
     POST engine env request w
     = (Return {| code := 500; payload := ErrorBody (lit "Failed to create lesson") |},
        add_events [EvInsert (insert_fields text)] w)) \/
  (exists text new_id stamp, text <> [] /\
     insert_reply env (insert_fields text) = inl (new_id, stamp) /\
     POST engine env request w
     = (Return {| code := 200; payload := CreatedBody new_id Generating |},
        created text new_id stamp w)).
Proof.
  unfold POST, try_catch, bind. destruct request as [parsed|e]; simpl; [|eauto].
  destruct (get_prop (Some parsed) (lit "outline")) as [v|te]; simpl; [|eauto].
  destruct v as [[|[]|[]|[|c rest]|items|members]|]; simpl; eauto.
  set (text := c :: rest).
  assert (Htext : text <> []) by done.
  fold (insert_fields text).
  unfold supabase_insert, bind, emit, modify, set_store, detach, ret; simpl.
  destruct (insert_reply env (insert_fields text)) as [[new_id stamp]|e] eqn:Hins; simpl.
  - right. right. exists text, new_id, stamp. done.
  - right. left. exists text, e. done.
Qed.

(** C4 (as amended).  When the body is a JSON value other than [null] and
    has no [outline] member, or one that is the empty string (or any other
    falsy value), [POST] answers 400 and leaves the world as it was: nothing
    is asked of the store.  Every such body can be read, so these are all
    the bodies other than [null] whose outline is absent or empty.  A body
    that is [null] or is not JSON is answered 500, again with the world as it
    was.  These are the only answers 400: an outline that is a non-empty
    string, of whitespace or not, makes [POST] ask the store for the
    insert. *)
Theorem POST_rejects_missing_outline (request : json + exn) (w : World) :
  let rejected :=
    (Return {| code := 400; payload := ErrorBody (lit "Outline is required") |}, w) in
  let failed :=
    (Return {| code := 500; payload := ErrorBody (lit "Internal server error") |}, w) in
  (forall parsed v, request = inl parsed ->
     get_prop (Some parsed) (lit "outline") = inl v -> truthy v = false ->
     POST engine env request w = rejected) /\
  (forall parsed, request = inl parsed -> parsed <> JNull ->
     exists v, get_prop (Some parsed) (lit "outline") = inl v) /\
  ((exists e, request = inr e) \/ request = inl JNull ->
   POST engine env request w = failed) /\
  (forall resp w', POST engine env request w = (Return resp, w') ->
     code resp = 400 ->
     w' = w /\
     exists parsed v, request = inl parsed /\
       get_prop (Some parsed) (lit "outline") = inl v /\ truthy v = false) /\
  (forall parsed text, request = inl parsed ->
     get_prop (Some parsed) (lit "outline") = inl (Some (JStr text)) -> text <> [] ->
     log (POST engine env request w).2 = log w ++ [EvInsert (insert_fields text)]).
Proof.
  intros rejected failed. subst rejected failed.
  split; [|split; [|split; [|split]]].
  - intros parsed v -> Hget Hv. unfold POST, try_catch, bind. simpl.
    rewrite Hget. simpl. by rewrite Hv.
  - intros parsed _. apply get_prop_readable.
  - intros [[e ->]| ->]; [done|].
    unfold POST, try_catch, bind. simpl. by rewrite get_prop_of_null.
  - intros resp w' Hrun Hcode.
    destruct request as [parsed|e]; [|by injection Hrun as <- <-].
    revert Hrun. unfold POST, try_catch, bind. simpl.
    destruct (get_prop (Some parsed) (lit "outline")) as [v|te] eqn:Hget; simpl;
      [|by intros [= <- <-]].
    destruct (truthy v) eqn:Hv; simpl.
    + destruct v as [[|[]|[]|[|c rest]|items|members]|]; simpl;
        try (by intros [= <- <-]); try done.
      unfold supabase_insert, bind, emit, modify, set_store, detach, ret; simpl.
      destruct (insert_reply env _) as [[new_id stamp]|e]; simpl;
        intros [= <- <-]; done.
    + intros [= <- <-]. split; [done|]. by exists parsed, v.
  - intros parsed text -> Hget Htext. unfold POST, try_catch, bind. simpl.
    rewrite Hget. simpl. destruct text as [|c text]; [done|]. simpl.
    unfold supabase_insert, bind, emit, modify, set_store, detach, ret; simpl.
    fold (insert_fields (c :: text)).
    by destruct (insert_reply env (insert_fields (c :: text))) as [[new_id stamp]|e].
Qed.

End Endpoint.

(** *** The record invariant *)

Lemma updated_generated_invariant lessonId c t st :
  store_invariant st ->
  store_invariant (updated env lessonId (generated_fields c t) st).
Proof.
  intros Hst k l. unfold updated.
  destruct (update_reply env lessonId _); [apply Hst|].
  destruct (decide (lessonId = k)) as [->|Hne].
  - rewrite lookup_alter_eq. destruct (st !! k) as [l0|]; [|done].
    intros [= <-]. unfold lesson_invariant. simpl. split; eauto.
  - rewrite lookup_alter_ne by done. apply Hst.
Qed.

Lemma updated_failed_invariant lessonId e stamp st :
  store_invariant st ->
  (forall l, st !! lessonId = Some l -> content l = None) ->
  store_invariant (updated env lessonId (failed_fields e stamp) st).
Proof.
  intros Hst Hrow k l. unfold updated.
  destruct (update_reply env lessonId _); [apply Hst|].
  destruct (decide (lessonId = k)) as [->|Hne].
  - rewrite lookup_alter_eq. destruct (st !! k) as [l0|] eqn:Hk; [|done].
    intros [= <-]. unfold lesson_invariant. simpl. by apply Hrow.
  - rewrite lookup_alter_ne by done. apply Hst.
Qed.

Lemma expected_run_invariant lessonId outline w :
  store_invariant (store w) ->
  (forall l, store w !! lessonId = Some l -> content l = None) ->
  store_invariant (store (expected_run engine env lessonId outline w)).
Proof.
  intros Hst Hrow. unfold expected_run.
  destruct (update_reply env lessonId _) eqn:Hreply; simpl.
  - by apply updated_failed_invariant.
  - by apply updated_generated_invariant.
Qed.

Lemma created_invariant text new_id stamp w :
  store_invariant (store w) ->
  store_invariant (store (created text new_id stamp w)).
Proof.
  intros Hst k l. simpl.
  destruct (decide (new_id = k)) as [->|Hne].
  - rewrite lookup_insert_eq. by intros [= <-].
  - rewrite lookup_insert_ne by done. apply Hst.
Qed.

Lemma generateMockLesson_nonempty outline flag :
  generateMockLesson outline flag <> [].
Proof.
  destruct flag; [by vm_compute|].
  intros H. apply (f_equal (take 1)) in H. revert H. by vm_compute.
Qed.

(** With the [mock] flag set, the content is the mock generator's. *)
Lemma chosen_mock_content outline t0 :
  mock t0 = None ->
  mock (chosen engine env outline t0).2 = Some true ->
  (chosen engine env outline t0).1.2
  = generateMockLesson outline (is_easter_egg engine outline).
Proof.
  unfold chosen. intros H0.
  destruct (configured (HELICONE_API_KEY env)), (configured (GEMINI_API_KEY env));
    destruct (probe (generateWithHelicone engine env (sent_prompt engine outline)))
      as [[ch|eh] tbh];
    destruct (probe (generateWithGemini engine env (sent_prompt engine outline)))
      as [[cg|eg] tbg]; simpl; rewrite ?H0; done.
Qed.

Lemma settle_created text new_id stamp w :
  detached w = [] ->
  settle engine env (created text new_id stamp w)
  = expected_run engine env new_id text
      {| store := <[new_id := new_row (insert_fields text) new_id stamp]> (store w);
         log := log w ++ [EvInsert (insert_fields text)];
         ticks := ticks w;
         detached := [] |}.
Proof.
  intros Hd. unfold settle, created. simpl. rewrite Hd. simpl.
  by rewrite generateLessonContent_run.
Qed.

Lemma settle_idle w : detached w = [] -> store (settle engine env w) = store w.
Proof. intros Hd. unfold settle. by rewrite Hd. Qed.

(** C6 (as amended).  Starting from a table that satisfies the invariant,
    the table satisfies it after the insert of [POST] and again after the
    dispatched generation has made its terminal update: a [Generated] record
    has a content and a trace, a [Generating] or [Failed] record has no
    content.  The content of the record just created is not empty when its
    trace carries the [mock] flag; a text returned by an adapter is stored
    as it is, also when it is empty. *)
Theorem records_keep_invariant request w :
  store_invariant (store w) ->
  detached w = [] ->
  let posted := POST engine env request w in
  let settled := settle engine env posted.2 in
  store_invariant (store posted.2) /\
  store_invariant (store settled) /\
  (forall new_id l t,
     posted.1 = Return {| code := 200; payload := CreatedBody new_id Generating |} ->
     store settled !! new_id = Some l ->
     trace l = Some (RunTrace t) ->
     mock t = Some true ->
     exists c, content l = Some c /\ c <> []).
Proof.
  intros Hst Hd posted settled. subst settled posted.
  destruct (POST_cases request w)
    as [(resp & -> & Hcode)|[(text & e & Htext & Hins & ->)|
                             (text & new_id & stamp & Htext & Hins & ->)]].
  - simpl. rewrite (settle_idle w Hd). split; [done|]. split; [done|].
    intros ? ? ? [= ->]. by destruct Hcode.
  - simpl. rewrite settle_idle by done. simpl. split; [done|]. split; [done|].
    intros ? ? ? [=].
  - cbn [fst snd]. rewrite (settle_created _ _ _ _ Hd).
    split; [by apply created_invariant|].
    split.
    + apply expected_run_invariant; simpl.
      * by apply (created_invariant text new_id stamp w).
      * intros l. rewrite lookup_insert_eq. by intros [= <-].
    + intros k l t [= <-]. unfold expected_run, updated. cbn [store].
      destruct (update_reply env new_id (generated_fields _ _)) as [e|] eqn:Hgen.
      * destruct (update_reply env new_id (failed_fields _ _)); cbn [store].
        -- rewrite lookup_insert_eq. by intros [= <-].
        -- rewrite lookup_alter_eq, lookup_insert_eq. by intros [= <-].
      * cbn [store]. rewrite lookup_alter_eq, lookup_insert_eq. intros [= <-].
        cbn [apply_update generated_fields upd_trace upd_content trace content].
        intros [= <-] Hmock. eexists. split; [reflexivity|].
        unfold run_content. unfold run_trace in Hmock.
        rewrite (chosen_mock_content text (initial_trace text _) eq_refl Hmock).
        apply generateMockLesson_nonempty.
Qed.

(** *** What the adapters check *)

Lemma get_prop_array_length (items : list json) :
  get_prop (Some (JArr items)) (lit "length")
  = inl (Some (JNum (number_of_nat (length items)))).
Proof. reflexivity. Qed.

Lemma get_prop_array_first (items : list json) :
  get_prop (Some (JArr items)) (lit "0") = inl (head items).
Proof. by destruct items. Qed.

Lemma is_zero_length (items : list json) :
  is_zero (Some (JNum (number_of_nat (length items)))) = false -> items <> [].
Proof. by destruct items. Qed.

Lemma generateWithGemini_returns p t w c :
  (generateWithGemini engine env p (t, w)).1 = Return c ->
  exists resp data cand rest content parts part s,
    gemini_reply env p = inl resp /\ response_ok resp = true /\
    body_json resp = inl data /\
    get_prop (Some data) (lit "candidates") = inl (Some (JArr (cand :: rest))) /\
    get_prop (Some cand) (lit "content") = inl content /\ truthy content = true /\
    get_prop content (lit "parts") = inl parts /\ truthy parts = true /\
    get_prop parts (lit "0") = inl part /\
    get_prop part (lit "text") = inl (Some (JStr s)) /\
    c = strip_fences s.
Proof.
  unfold generateWithGemini, orM.
  walk.
  all: try absurd_reads.
  all: try (by intros [=]).
  all: intros [= <-].
  all: repeat match goal with H : _ /\ _ |- _ => destruct H end.
  all: match goal with
       | H : negb (is_array ?v) = false |- _ =>
         destruct v as [[| | | |items|]|]; try discriminate
       end.
  all: rewrite get_prop_array_length in *; rewrite get_prop_array_first in *.
  all: simplify_eq.
  all: match goal with
       | H : is_zero (Some (JNum (number_of_nat (length ?l)))) = false |- _ =>
         destruct l as [|cand rest]; [discriminate|]
       end.
  all: simpl head in *.
  all: rewrite negb_false_iff in *.
  all: do 8 eexists.
  all: repeat (split; [eassumption|]).
  all: reflexivity.
Qed.


Lemma strip_fences_empty : strip_fences [] = [].
Proof. reflexivity. Qed.

Lemma get_prop_array_cons_first (x : json) (l : list json) :
  get_prop (Some (JArr (x :: l))) (lit "0") = inl (Some x).
Proof. reflexivity. Qed.

Section Known.

#[local] Opaque get_prop lit strip_fences read string_of_N.

Ltac known_reads :=
  repeat first
    [ rewrite bind_ret_l
    | rewrite bind_throw_l
    | progress simpl
    | match goal with
      | H : get_prop ?v (lit ?k) = inl ?x |- context [@read _ ?S ?v ?k] =>
        rewrite (read_ok v k x S H)
      | H : response_ok ?r = _ |- context [response_ok ?r] => rewrite H
      | H : body_json ?r = _ |- context [body_json ?r] => rewrite H
      | H : truthy ?v = _ |- context [truthy ?v] => rewrite H
      | H : nullish ?v = _ |- context [nullish ?v] => rewrite H
      | H : is_array ?v = _ |- context [is_array ?v] => rewrite H
      end ].

Lemma generateWithGemini_text p t w resp data cand rest content part others s :
  gemini_reply env p = inl resp ->
  response_ok resp = true ->
  body_json resp = inl data ->
  get_prop (Some data) (lit "candidates") = inl (Some (JArr (cand :: rest))) ->
  get_prop (Some cand) (lit "content") = inl content ->
  truthy content = true ->
  get_prop content (lit "parts") = inl (Some (JArr (part :: others))) ->
  get_prop (Some part) (lit "text") = inl (Some (JStr s)) ->
  (generateWithGemini engine env p (t, w)).1 = Return (strip_fences s).
Proof.
  intros Hreply Hok Hdata Hcands Hcontent Htruthy Hparts Htext.
  pose proof (get_prop_array_length (cand :: rest)) as Hlen.
  pose proof (get_prop_array_cons_first cand rest) as Hfirst.
  pose proof (get_prop_array_length (part :: others)) as Hlen'.
  pose proof (get_prop_array_cons_first part others) as Hfirst'.
  unfold generateWithGemini, orM.
  rewrite Hreply.
  known_reads.
  pose proof (get_prop_not_nullish _ _ _ Hparts).
  pose proof (get_prop_not_nullish _ _ _ Hcontent).
  walk; try absurd_reads; reflexivity.
Qed.





Lemma generateWithGemini_no_content p t w resp data cand rest content :
  gemini_reply env p = inl resp ->
  response_ok resp = true ->
  body_json resp = inl data ->
  get_prop (Some data) (lit "candidates") = inl (Some (JArr (cand :: rest))) ->
  get_prop (Some cand) (lit "content") = inl content ->
  truthy content = false \/
  (exists parts, get_prop content (lit "parts") = inl parts /\
                 (truthy parts = false \/ parts = Some (JArr []))) ->
  (generateWithGemini engine env p (t, w)).1
  = Raise (new_Error engine (lit "No content in Gemini API response")).
Proof.
  intros Hreply Hok Hdata Hcands Hcontent Hbad.
  pose proof (get_prop_array_length (cand :: rest)) as Hlen.
  pose proof (get_prop_array_cons_first cand rest) as Hfirst.
  pose proof (get_prop_array_length []) as Hlen'.
  unfold generateWithGemini, orM. rewrite Hreply.
  destruct Hbad as [Hfalsy|(parts & Hparts & [Hfalsy| ->])].
  - by known_reads.
  - destruct (truthy content) eqn:Htruthy; by known_reads.
  - destruct (truthy content) eqn:Htruthy; by known_reads.
Qed.



Lemma generateWithGemini_bad_status p t w resp text :
  gemini_reply env p = inl resp ->
  response_ok resp = false ->
  body_text resp = inl text ->
  (generateWithGemini engine env p (t, w)).1
  = Raise (new_Error engine
             (lit "Gemini API returned " ++ string_of_N (http_status resp)
              ++ lit ": " ++ text)).
Proof.
  intros Hreply Hok Htext.
  unfold generateWithGemini, orM. rewrite Hreply.
  known_reads. rewrite Htext. by known_reads.
Qed.

End Known.


(** *** More on the create endpoint *)

Lemma get_prop_null (k : jsstring) :
  get_prop (Some JNull) k = inr (ReadOfNullish true k).
Proof. done. Qed.

Section EndpointOutcomes.

#[local] Opaque get_prop lit.

(** X7.  For a body whose [outline] is a non-empty string and a store that
    accepts the insert, [POST] answers 200 with the new id, the table gains
    a [Generating] row that holds the outline as sent, a non-empty title and
    neither content nor trace, and one generation is dispatched for it. *)
Theorem POST_creates_lesson (parsed : json) (text new_id stamp : jsstring) (w : World) :
  get_prop (Some parsed) (lit "outline") = inl (Some (JStr text)) ->
  text <> [] ->
  insert_reply env (insert_fields text) = inl (new_id, stamp) ->
  let posted := POST engine env (inl parsed) w in
  posted.1 = Return {| code := 200; payload := CreatedBody new_id Generating |} /\
  store posted.2 !! new_id
  = Some {| id := new_id; outline := text; title := Some (extractTitle text);
            content := None; status := Generating; trace := None;
            created_at := stamp |} /\
  extractTitle text <> [] /\
  (forall k, k <> new_id -> store posted.2 !! k = store w !! k) /\
  log posted.2
  = log w ++ [EvInsert {| ins_outline := text; ins_title := extractTitle text;
                          ins_status := Generating |}] /\
  detached posted.2 = detached w ++ [(new_id, text)].
Proof.
  intros Hget Htext Hins posted. subst posted.
  unfold POST, try_catch, bind. simpl. rewrite Hget. simpl.
  destruct text as [|c text]; [done|]. simpl.
  unfold supabase_insert, bind, emit, modify, set_store, detach, ret; simpl.
  fold (insert_fields (c :: text)). rewrite Hins. simpl.
  split; [done|]. split; [by rewrite lookup_insert_eq|].
  split; [by intros ?%extractTitle_nil_inv|].
  split; [|done]. intros k Hk. by rewrite lookup_insert_ne.
Qed.

(** X8.  When the store rejects the insert, [POST] answers 500 "Failed to
    create lesson", the table is as before, and no generation is
    dispatched. *)
Theorem POST_store_failure (parsed : json) (text : jsstring) (e : exn) (w : World) :
  get_prop (Some parsed) (lit "outline") = inl (Some (JStr text)) ->
  text <> [] ->
  insert_reply env (insert_fields text) = inr e ->
  let posted := POST engine env (inl parsed) w in
  posted.1 = Return {| code := 500; payload := ErrorBody (lit "Failed to create lesson") |} /\
  store posted.2 = store w /\
  detached posted.2 = detached w /\
  log posted.2 = log w ++ [EvInsert (insert_fields text)].
Proof.
  intros Hget Htext Hins posted. subst posted.
  unfold POST, try_catch, bind. simpl. rewrite Hget. simpl.
  destruct text as [|c text]; [done|]. simpl.
  unfold supabase_insert, bind, emit, modify, set_store, detach, ret; simpl.
  fold (insert_fields (c :: text)). by rewrite Hins.
Qed.

(** X9.  A body that is not JSON, a body that is [null], and an [outline]
    that is truthy without being a string (a number, [true], an array, an
    object) all end in 500 "Internal server error", with nothing asked of
    the store. *)
Theorem POST_unusable_body (request : json + exn) (w : World) :
  (exists e, request = inr e) \/
  request = inl JNull \/
  (exists parsed v, request = inl parsed /\
     get_prop (Some parsed) (lit "outline") = inl v /\
     truthy v = true /\ forall s, v <> Some (JStr s)) ->
  POST engine env request w
  = (Return {| code := 500; payload := ErrorBody (lit "Internal server error") |}, w).
Proof.
  intros [[e ->]|[->|(parsed & v & -> & Hget & Hv & Hstr)]].
  - done.
  - unfold POST, try_catch, bind. simpl. by rewrite get_prop_null.
  - unfold POST, try_catch, bind. simpl. rewrite Hget. simpl. rewrite Hv. simpl.
    destruct v as [[| | |s| |]|]; try done. by destruct (Hstr s).
Qed.

(** X10.  [POST] never throws.  It answers 200, 400 or 500; with 200 it has
    asked for exactly one insert and dispatched exactly one generation, and
    with 400 or 500 the table is as before and nothing is dispatched. *)
Theorem POST_always_answers (request : json + exn) (w : World) :
  exists resp w',
    POST engine env request w = (Return resp, w') /\
    (code resp = 200 \/ code resp = 400 \/ code resp = 500) /\
    (code resp = 200 ->
     exists text new_id,
       payload resp = CreatedBody new_id Generating /\
       log w' = log w ++ [EvInsert (insert_fields text)] /\
       detached w' = detached w ++ [(new_id, text)] /\
       is_Some (store w' !! new_id)) /\
    (code resp <> 200 -> store w' = store w /\ detached w' = detached w).
Proof.
  destruct (POST_cases request w)
    as [(resp & -> & Hcode)|[(text & e & Htext & Hins & ->)|
                             (text & new_id & stamp & Htext & Hins & ->)]].
  - exists resp, w. split; [done|]. split; [tauto|].
    split; [|done]. intros H200. destruct Hcode as [H|H]; rewrite H in H200; done.
  - eexists _, _. split; [reflexivity|]. simpl. split; [tauto|]. by split.
  - eexists _, _. split; [reflexivity|]. simpl. split; [tauto|]. split; [|done].
    intros _. exists text, new_id. split; [done|]. split; [done|]. split; [done|].
    rewrite lookup_insert_eq. by eexists.
Qed.

End EndpointOutcomes.

(** *** More on the orchestrator *)

(** X11.  A run changes no row but its own, creates and deletes none, and
    leaves the id, outline, title and creation time of its own row as they
    were; it dispatches nothing. *)
Theorem generateLessonContent_touches_one_row lessonId text w :
  let w' := (generateLessonContent engine env lessonId text w).2 in
  (forall k, k <> lessonId -> store w' !! k = store w !! k) /\
  (store w !! lessonId = None -> store w' !! lessonId = None) /\
  (forall l, store w !! lessonId = Some l ->
     exists l', store w' !! lessonId = Some l' /\
       id l' = id l /\ outline l' = outline l /\ title l' = title l /\
       created_at l' = created_at l) /\
  detached w' = detached w.
Proof.
  intros w'. subst w'. rewrite generateLessonContent_run.
  assert (Hupd : forall fields,
            (forall k, k <> lessonId ->
               updated env lessonId fields (store w) !! k = store w !! k) /\
            (store w !! lessonId = None ->
               updated env lessonId fields (store w) !! lessonId = None) /\
            (forall l, store w !! lessonId = Some l ->
               exists l', updated env lessonId fields (store w) !! lessonId = Some l' /\
                 id l' = id l /\ outline l' = outline l /\ title l' = title l /\
                 created_at l' = created_at l)).
  { intros fields. unfold updated.
    destruct (update_reply env lessonId fields).
    - split; [done|]. split; [done|]. intros l Hl. by exists l.
    - split; [|split].
      + intros k Hk. by rewrite lookup_alter_ne.
      + intros Hnone. by rewrite lookup_alter_eq, Hnone.
      + intros l Hl. rewrite lookup_alter_eq, Hl. simpl. by eexists. }
  unfold expected_run. cbn [snd].
  destruct (update_reply env lessonId (generated_fields _ _)) as [e|];
    cbn [store detached].
  - destruct (Hupd (failed_fields e (clock env (S (ticks w))))) as (H1 & H2 & H3).
    by repeat split.
  - destruct (Hupd (generated_fields (run_content engine env text w)
                                     (run_trace engine env text w))) as (H1 & H2 & H3).
    by repeat split.
Qed.

(** X12.  Without credentials nothing is attempted: the only step is the
    [Generated] update (and the [Failed] one if the store rejects it), the
    content is the mock generator's, and the trace has the [mock] flag, the
    content as [output], and no provider, model, fallback reason or response
    metadata. *)
Theorem generateLessonContent_without_credentials lessonId text w :
  configured (HELICONE_API_KEY env) = false ->
  configured (GEMINI_API_KEY env) = false ->
  let w' := (generateLessonContent engine env lessonId text w).2 in
  let mock_text := generateMockLesson text (is_easter_egg engine text) in
  let t :=
    {| prompt := lit "Generate a TypeScript educational module for: " ++ text;
       timestamp := clock env (ticks w);
       provider := None; model := None;
       output := Some mock_text; mock := Some true;
       fallback_reason := None; response_metadata := None |} in
  let fields :=
    {| upd_content := Some mock_text; upd_status := Some Generated;
       upd_trace := Some (RunTrace t) |} in
  log w' = log w ++ EvUpdate lessonId fields :: failure_tail env lessonId fields w /\
  (update_reply env lessonId fields = None ->
   forall l, store w !! lessonId = Some l ->
     exists l', store w' !! lessonId = Some l' /\
       status l' = Generated /\ content l' = Some mock_text /\
       trace l' = Some (RunTrace t)).
Proof.
  intros Hh Hg w' mock_text t fields.
  assert (Hchosen : chosen engine env text (initial_trace text (clock env (ticks w)))
                    = ([], mock_text, t)).
  { unfold chosen. by rewrite Hh, Hg. }
  split.
  - subst w'. rewrite generateLessonContent_log.
    unfold run_chain, run_content, run_trace. by rewrite Hchosen.
  - intros Hok l Hl. subst w'. rewrite generateLessonContent_run.
    unfold expected_run, run_chain, run_content, run_trace. rewrite Hchosen.
    cbn [fst snd]. change (generated_fields mock_text t) with fields.
    rewrite Hok. cbn [store]. unfold updated. rewrite Hok.
    rewrite lookup_alter_eq, Hl. simpl. by eexists.
Qed.

(** X13.  On every path a run logs its attempts and then one [Generated]
    update, and the trace written with that update has the content written
    with it as its [output] and the instant at which the run began as its
    [timestamp]; its [provider] and [model] go together: both absent,
    "helicone" with "gpt-4o-mini", or "gemini" with "gemini-2.5-flash". *)
Theorem trace_output_is_content lessonId text w :
  let w' := (generateLessonContent engine env lessonId text w).2 in
  exists chain c t tail,
    log w' = log w
             ++ map (fun p => EvAttempt p (sent_prompt engine text)) chain
             ++ EvUpdate lessonId
                  {| upd_content := Some c; upd_status := Some Generated;
                     upd_trace := Some (RunTrace t) |} :: tail /\
    (forall ev, ev ∈ tail ->
       exists failed, ev = EvUpdate lessonId failed /\ upd_status failed = Some Failed) /\
    output t = Some c /\
    timestamp t = clock env (ticks w) /\
    ((provider t = None /\ model t = None) \/
     (provider t = Some (lit "helicone") /\ model t = Some (lit "gpt-4o-mini")) \/
     (provider t = Some (lit "gemini") /\ model t = Some (lit "gemini-2.5-flash"))).
Proof.
  intros w'. subst w'.
  exists (run_chain engine env text w), (run_content engine env text w),
         (run_trace engine env text w),
         (failure_tail env lessonId
            (generated_fields (run_content engine env text w)
                              (run_trace engine env text w)) w).
  split; [apply generateLessonContent_log|].
  split.
  { intros ev. unfold failure_tail.
    destruct (update_reply env lessonId _) as [e|]; [|by intros ?%elem_of_nil].
    intros ->%list_elem_of_singleton. by eexists. }
  unfold run_trace, run_content, chosen.
  destruct (adapter_probe _ _ (generateWithHelicone_run (sent_prompt engine text)))
    as [(eh & -> & _)|(ch & tbh & -> & Hoh & _)];
  destruct (adapter_probe _ _ (generateWithGemini_run (sent_prompt engine text)))
    as [(eg & -> & _)|(cg & tbg & -> & Hog & _)];
  destruct (configured (HELICONE_API_KEY env)), (configured (GEMINI_API_KEY env));
  simpl; (split; [done|]); (split; [done|]); tauto.
Qed.

(** X14.  The [fallback_reason] of the trace a run writes with its
    [Generated] update is the message of the error the last attempted
    adapter failed with; it is absent when that adapter returned a text and
    when nothing was attempted. *)
Theorem trace_fallback_reason lessonId text w :
  let w' := (generateLessonContent engine env lessonId text w).2 in
  exists chain c t tail,
    log w' = log w
             ++ map (fun p => EvAttempt p (sent_prompt engine text)) chain
             ++ EvUpdate lessonId
                  {| upd_content := Some c; upd_status := Some Generated;
                     upd_trace := Some (RunTrace t) |} :: tail /\
    (forall ev, ev ∈ tail ->
       exists failed, ev = EvUpdate lessonId failed /\ upd_status failed = Some Failed) /\
    fallback_reason t
    = match last chain with
      | None => None
      | Some p =>
        match adapter_outcome engine env text p with
        | Return _ => None
        | Raise e => Some (error_text e)
        end
      end.
Proof.
  intros w'. subst w'.
  exists (run_chain engine env text w), (run_content engine env text w),
         (run_trace engine env text w),
         (failure_tail env lessonId
            (generated_fields (run_content engine env text w)
                              (run_trace engine env text w)) w).
  split; [apply generateLessonContent_log|].
  split.
  { intros ev. unfold failure_tail.
    destruct (update_reply env lessonId _) as [e|]; [|by intros ?%elem_of_nil].
    intros ->%list_elem_of_singleton. by eexists. }
  unfold run_trace, run_chain, chosen, adapter_outcome, helicone_outcome, gemini_outcome.
  destruct (configured (HELICONE_API_KEY env)), (configured (GEMINI_API_KEY env));
    destruct (probe (generateWithHelicone engine env (sent_prompt engine text)))
      as [[ch|eh] tbh];
    destruct (probe (generateWithGemini engine env (sent_prompt engine text)))
      as [[cg|eg] tbg]; reflexivity.
Qed.

(** X15.  An adapter call logs one attempt and touches neither the table,
    the clock nor the dispatched calls.  When it throws, the trace object is
    as it was; when it returns a text, the object has that text as [output]
    and a [response_metadata], and its other fields are as they were. *)
Theorem adapters_effect_on_trace (p : jsstring) (t : Trace) (w : World) :
  let effect (who : Provider) (run : outcome jsstring * (Trace * World)) :=
    run.2.2 = add_events [EvAttempt who p] w /\
    match run.1 with
    | Raise _ => run.2.1 = t
    | Return c =>
      output run.2.1 = Some c /\ is_Some (response_metadata run.2.1) /\
      prompt run.2.1 = prompt t /\ timestamp run.2.1 = timestamp t /\
      provider run.2.1 = provider t /\ model run.2.1 = model t /\
      mock run.2.1 = mock t /\ fallback_reason run.2.1 = fallback_reason t
    end in
  effect Gemini (generateWithGemini engine env p (t, w)) /\
  effect Helicone (generateWithHelicone engine env p (t, w)).
Proof.
  intros effect. subst effect. cbv beta. split.
  - destruct (generateWithGemini_run p) as [e H|c md H]; pose proof (H t w) as Ht;
      destruct (generateWithGemini engine env p (t, w)) as [r [t' w']];
      injection Ht as -> -> ->; simpl; repeat split; try done; by eexists.
  - destruct (generateWithHelicone_run p) as [e H|c md H]; pose proof (H t w) as Ht;
      destruct (generateWithHelicone engine env p (t, w)) as [r [t' w']];
      injection Ht as -> -> ->; simpl; repeat split; try done; by eexists.
Qed.

(** The Helicone adapter returns nothing but a cleaned text. *)
Lemma generateWithHelicone_returns p t w c :
  (generateWithHelicone engine env p (t, w)).1 = Return c ->
  exists s, c = strip_fences s.
Proof.
  unfold generateWithHelicone.
  walk; try absurd_reads; try (by intros [=]).
  all: intros [= <-]; by eexists.
Qed.

(** X16.  A text returned by either adapter holds no fence marker and
    neither starts nor ends with whitespace. *)
Theorem adapters_return_clean_text (p : jsstring) (t : Trace) (w : World) (c : jsstring) :
  (generateWithGemini engine env p (t, w)).1 = Return c \/
  (generateWithHelicone engine env p (t, w)).1 = Return c ->
  includes (lit "```") c = false /\ trim c = c.
Proof.
  intros H.
  assert (Hs : exists s, c = strip_fences s).
  { destruct H as [H|H].
    - apply generateWithGemini_returns in H
        as (? & ? & ? & ? & ? & ? & ? & s & H). exists s. apply H.
    - by apply generateWithHelicone_returns in H. }
  destruct Hs as [s ->].
  split; [apply strip_fences_no_fence|apply strip_fences_trimmed].
Qed.

Section AdapterFailures.

#[local] Opaque get_prop lit strip_fences read string_of_N.

(** X17.  An adapter fails with the very error of its transport: the
    rejection of [fetch] or of the body's [json()] for Gemini, the rejection
    of the SDK call for Helicone.  A Gemini reply outside 2xx fails with the
    status and the body text in the message. *)
Theorem adapters_pass_transport_errors (p : jsstring) (t : Trace) (w : World) :
  (forall e, gemini_reply env p = inr e ->
     (generateWithGemini engine env p (t, w)).1 = Raise e) /\
  (forall resp e, gemini_reply env p = inl resp -> response_ok resp = true ->
     body_json resp = inr e ->
     (generateWithGemini engine env p (t, w)).1 = Raise e) /\
  (forall resp text, gemini_reply env p = inl resp -> response_ok resp = false ->
     body_text resp = inl text ->
     (generateWithGemini engine env p (t, w)).1
     = Raise (new_Error engine
                (lit "Gemini API returned " ++ string_of_N (http_status resp)
                 ++ lit ": " ++ text))) /\
  (forall e, helicone_reply env p = inr e ->
     (generateWithHelicone engine env p (t, w)).1 = Raise e).
Proof.
  split; [|split; [|split]].
  - intros e H. unfold generateWithGemini. by rewrite H.
  - intros resp e H Hok Hjson. unfold generateWithGemini.
    rewrite H. cbn [await]. rewrite bind_ret_l, Hok. cbn [negb].
    rewrite Hjson. cbn [await]. by rewrite bind_throw_l.
  - intros resp text. apply generateWithGemini_bad_status.
  - intros e H. unfold generateWithHelicone. by rewrite H.
Qed.

End AdapterFailures.

(** X18.  With only a Gemini credential and a Gemini reply outside 2xx, a
    run makes the one attempt at Gemini and then writes the [Generated]
    update with the mock generator's text as content and a trace that
    carries the [mock] flag, the provider "gemini", and as [fallback_reason]
    the text "Gemini API returned <status>: <body>". *)
Theorem gemini_bad_status_falls_back lessonId text w resp body :
  configured (HELICONE_API_KEY env) = false ->
  configured (GEMINI_API_KEY env) = true ->
  gemini_reply env (sent_prompt engine text) = inl resp ->
  response_ok resp = false ->
  body_text resp = inl body ->
  let w' := (generateLessonContent engine env lessonId text w).2 in
  exists t tail,
    log w' = log w
             ++ EvAttempt Gemini (sent_prompt engine text)
             :: EvUpdate lessonId
                  {| upd_content := Some (generateMockLesson text (is_easter_egg engine text));
                     upd_status := Some Generated;
                     upd_trace := Some (RunTrace t) |} :: tail /\
    (forall ev, ev ∈ tail ->
       exists failed, ev = EvUpdate lessonId failed /\ upd_status failed = Some Failed) /\
    mock t = Some true /\
    provider t = Some (lit "gemini") /\
    fallback_reason t
    = Some (lit "Gemini API returned " ++ string_of_N (http_status resp)
            ++ lit ": " ++ body).
Proof.
  intros Hh Hg Hreply Hok Hbody w'. subst w'.
  pose proof (generateWithGemini_bad_status (sent_prompt engine text)
                blank_trace empty_world resp body Hreply Hok Hbody) as Hfail.
  pose proof (generateLessonContent_log lessonId text w) as Hlog. cbv zeta in Hlog.
  revert Hlog. unfold failure_tail, run_chain, run_content, run_trace, chosen.
  rewrite Hh, Hg.
  unfold probe. destruct (generateWithGemini engine env (sent_prompt engine text)
                            (blank_trace, empty_world)) as [r [tb wb]].
  simpl in Hfail. subst r. cbn [fst snd]. intros Hlog.
  eexists _, _. split; [exact Hlog|]. split; [|by simpl].
  intros ev. destruct (update_reply env lessonId _) as [e|]; [|by intros ?%elem_of_nil].
  intros ->%list_elem_of_singleton. by eexists.
Qed.

(** *** The mock generator *)

(** X19.  The easter-egg module is the same for every outline.  The quiz
    module holds the outline as given between a fixed header and a fixed
    rest, so two outlines with the same quiz module are the same outline. *)
Theorem generateMockLesson_outline (a b : jsstring) :
  generateMockLesson a true = generateMockLesson b true /\
  (exists header rest, forall o, generateMockLesson o false = header ++ o ++ rest) /\
  (generateMockLesson a false = generateMockLesson b false <-> a = b).
Proof.
  unfold generateMockLesson. split; [reflexivity|]. split.
  - eexists _, _. intros o. reflexivity.
  - split; [|intros ->; reflexivity]. intros H.
    apply app_inv_head in H. apply app_inv_tail in H. exact H.
Qed.

(** *** The status probe, the form and the lesson page *)

(** X20.  The status probe and the orchestrator read the same setting.
    When the probe reports no key, a run makes no attempt at Gemini: every
    such attempt in its log was there before.  When the probe reports a key
    and no Helicone key is set, the attempt at Gemini is the first step of
    the run, followed at once by the [Generated] update. *)
Theorem GET_agrees_with_orchestrator lessonId text w :
  let w' := (generateLessonContent engine env lessonId text w).2 in
  ok (GET env) = true /\
  (hasKey (GET env) = false ->
   forall p, EvAttempt Gemini p ∈ log w' -> EvAttempt Gemini p ∈ log w) /\
  (hasKey (GET env) = true -> configured (HELICONE_API_KEY env) = false ->
   exists fields tail,
     log w' = log w ++ EvAttempt Gemini (sent_prompt engine text)
                    :: EvUpdate lessonId fields :: tail /\
     upd_status fields = Some Generated).
Proof.
  intros w'. subst w'. split; [done|].
  pose proof (generateLessonContent_log lessonId text w) as Hlog. cbv zeta in Hlog.
  unfold GET. cbn [hasKey]. split.
  - intros Hg p. rewrite Hlog, !elem_of_app.
    intros [Hold|[Hin|Hin]]; [exact Hold| |].
    + exfalso. apply list_elem_of_fmap in Hin as (q & [= <- _] & Hq).
      revert Hq. unfold run_chain, chosen. rewrite Hg.
      destruct (configured (HELICONE_API_KEY env));
        [destruct (probe (generateWithHelicone engine env (sent_prompt engine text)))
           as [[ch|eh] tbh]|]; cbn [fst];
        first [by intros ?%elem_of_nil | by intros ?%list_elem_of_singleton].
    + exfalso. apply elem_of_cons in Hin as [Hin|Hin]; [discriminate|].
      revert Hin. unfold failure_tail.
      destruct (update_reply env lessonId _) as [e|]; [|by intros ?%elem_of_nil].
      by intros ?%list_elem_of_singleton.
  - intros Hg Hh. revert Hlog. unfold run_chain, chosen. rewrite Hg, Hh.
    destruct (probe (generateWithGemini engine env (sent_prompt engine text)))
      as [[cg|eg] tbg]; cbn [fst map app]; intros Hlog;
      eexists _, _; (split; [exact Hlog|reflexivity]).
Qed.

Lemma get_prop_outline_member (text : jsstring) :
  get_prop (Some (JObj [(lit "outline", JStr text)])) (lit "outline")
  = inl (Some (JStr text)).
Proof. done. Qed.

Lemma trim_nonempty (s : jsstring) : trim s <> [] -> s <> [].
Proof. by intros H ->. Qed.

Section Form.

#[local] Opaque get_prop lit trim.

(** [POST] on a body whose [outline] is a non-empty string. *)
Lemma POST_string_outline (parsed : json) (text : jsstring) (w : World) :
  get_prop (Some parsed) (lit "outline") = inl (Some (JStr text)) ->
  text <> [] ->
  POST engine env (inl parsed) w
  = match insert_reply env (insert_fields text) with
    | inl (new_id, stamp) =>
      (Return {| code := 200; payload := CreatedBody new_id Generating |},
       created text new_id stamp w)
    | inr _ =>
      (Return {| code := 500; payload := ErrorBody (lit "Failed to create lesson") |},
       add_events [EvInsert (insert_fields text)] w)
    end.
Proof.
  intros Hget Htext.
  unfold POST, try_catch, bind. simpl. rewrite Hget. simpl.
  destruct text as [|c text]; [done|]. simpl.
  unfold supabase_insert, bind, emit, modify, set_store, detach, ret; simpl.
  fold (insert_fields (c :: text)).
  by destruct (insert_reply env (insert_fields (c :: text))) as [[new_id stamp]|e].
Qed.

(** X21.  With a text area that is empty or holds only whitespace,
    [handleGenerate] does nothing: no request, no alert, no change of the
    page or of the table. *)
Theorem handleGenerate_blank (transport : option exn) (ui : PageState) (w : World) :
  trim (form_outline ui) = [] ->
  handleGenerate engine env transport (ui, w) = (Return tt, (ui, w)).
Proof.
  intros H. unfold handleGenerate, bind, gets. simpl. by rewrite H.
Qed.

(** X22.  With any other text and a request that reaches the server,
    [handleGenerate] ends with the button released and the endpoint has not
    answered 400.  When the store accepts the insert the text area is
    cleared, the list is fetched again, nothing is alerted and the lesson is
    created; when it rejects the insert the text is kept, one alert is shown
    and the table is as before. *)
Theorem handleGenerate_submits (ui : PageState) (w : World) :
  trim (form_outline ui) <> [] ->
  let body := inl (JObj [(lit "outline", JStr (form_outline ui))]) in
  let run := handleGenerate engine env None (ui, w) in
  run.1 = Return tt /\
  isGenerating run.2.1 = false /\
  (forall resp, (POST engine env body w).1 = Return resp -> code resp <> 400) /\
  match insert_reply env (insert_fields (form_outline ui)) with
  | inl (new_id, stamp) =>
    form_outline run.2.1 = [] /\ alerts run.2.1 = alerts ui /\
    refreshes run.2.1 = S (refreshes ui) /\
    run.2.2 = created (form_outline ui) new_id stamp w
  | inr _ =>
    form_outline run.2.1 = form_outline ui /\
    alerts run.2.1
    = alerts ui ++ [lit "Failed to generate lesson. Please try again."] /\
    refreshes run.2.1 = refreshes ui /\
    store run.2.2 = store w /\ detached run.2.2 = detached w
  end.
Proof.
  intros Hblank body run. subst run body.
  pose proof (trim_nonempty _ Hblank) as Htext.
  pose proof (POST_string_outline _ _ w (get_prop_outline_member (form_outline ui)) Htext)
    as Hpost.
  unfold handleGenerate, bind, gets, try_catch, lift. simpl.
  destruct (trim (form_outline ui)) as [|c rest] eqn:Htrim; [done|].
  destruct (insert_reply env (insert_fields (form_outline ui))) as [[new_id stamp]|e];
    change ((ui, w).2) with w; rewrite !Hpost; simpl; repeat split; try done;
    by intros resp [= <-].
Qed.

(** X23.  When the request does not reach the server, [handleGenerate]
    shows one alert, keeps the text, releases the button, and leaves the
    table as it was. *)
Theorem handleGenerate_offline (e : exn) (ui : PageState) (w : World) :
  trim (form_outline ui) <> [] ->
  handleGenerate engine env (Some e) (ui, w)
  = (Return tt,
     ({| form_outline := form_outline ui; isGenerating := false;
         alerts := alerts ui ++ [lit "Failed to generate lesson. Please try again."];
         refreshes := refreshes ui |}, w)).
Proof.
  intros Hblank. unfold handleGenerate, bind, gets, try_catch. simpl.
  by destruct (trim (form_outline ui)).
Qed.

End Form.

(** X24.  The lesson page of a lesson just created shows the spinner under
    the derived title.  Once the dispatched generation has ended it shows,
    under the same title, the code and the trace when the store accepted the
    [Generated] update (no code block when the content is the empty text),
    the failure notice and the failure trace when the store accepted only
    the [Failed] update, and still the spinner when it accepted neither. *)
Theorem LessonPage_after_create (parsed : json) (text new_id stamp : jsstring) (w : World) :
  get_prop (Some parsed) (lit "outline") = inl (Some (JStr text)) ->
  text <> [] ->
  insert_reply env (insert_fields text) = inl (new_id, stamp) ->
  detached w = [] ->
  let posted := (POST engine env (inl parsed) w).2 in
  let settled := settle engine env posted in
  let began :=
    {| store := store posted; log := log posted; ticks := ticks posted;
       detached := [] |} in
  let c := run_content engine env text began in
  let t := run_trace engine env text began in
  LessonPage None (store posted) new_id = Some (extractTitle text, [Spinner]) /\
  LessonPage None (store settled) new_id
  = Some (extractTitle text,
          match update_reply env new_id (generated_fields c t) with
          | None =>
            match c with
            | [] => []
            | _ :: _ => [CodePreview c]
            end ++ [TraceLog (RunTrace t)]
          | Some e =>
            let stamp' := clock env (S (ticks w)) in
            match update_reply env new_id (failed_fields e stamp') with
            | None =>
              [FailureNotice;
               TraceLog (FailureTrace (error_text e) (error_stack e) stamp')]
            | Some _ => [Spinner]
            end
          end).
Proof.
  intros Hget Htext Hins Hd posted settled began c t.
  subst c t began settled posted.
  rewrite (POST_string_outline parsed text w Hget Htext), Hins. cbn [snd].
  assert (Htitle : forall rest : list Block,
            (match Some (extractTitle text) with
             | Some (x :: y) => x :: y
             | _ => lit "Lesson"
             end, rest) = (extractTitle text, rest)).
  { intros rest. destruct (extractTitle text) eqn:Ht; [|done].
    apply extractTitle_nil_inv in Ht. by destruct Htext. }
  split.
  - unfold LessonPage, created. cbn [store]. rewrite lookup_insert_eq.
    cbn [title status content trace new_row insert_fields ins_status ins_title].
    by rewrite Htitle.
  - rewrite (settle_created _ _ _ _ Hd).
    unfold created. cbn [store log ticks].
    unfold expected_run, updated.
    destruct (update_reply env new_id (generated_fields _ _)) as [e|] eqn:Hgen;
      cbn [store ticks].
    + destruct (update_reply env new_id (failed_fields _ _)) eqn:Hfail.
      * unfold LessonPage. rewrite lookup_insert_eq.
        cbn [title status content trace new_row insert_fields ins_status ins_title].
        by rewrite Htitle.
      * unfold LessonPage. rewrite lookup_alter_eq, lookup_insert_eq.
        cbn. by rewrite Htitle.
    + unfold LessonPage. rewrite lookup_alter_eq, lookup_insert_eq.
      cbn. rewrite Htitle. by destruct (run_content _ _ _ _).
Qed.

End RouteProperties.

(** ** Concrete runs *)

Lemma store_invariant_empty : store_invariant ∅.
Proof. intros k l. by rewrite lookup_empty. Qed.

(** C2.  At a store that rejects the [Generated] update with the error
    object supabase-js reports, the run returns normally and its last step
    marks the lesson [Failed]; but the trace of that update holds the text
    "[object Object]" and no stack, not the message of the store's error:
    the handler reads [message] and [stack] off instances of [Error] only,
    and the one value thrown into it is this plain object. *)
Lemma store_error_message_lost :
  let env := env_both_fail (reject_generated_with (thrown_error_object statement_timeout)) in
  let run := generateLessonContent sample_engine env lesson_1 topic sample_world in
  run.1 = Return tt /\
  last_event run.2
  = Some (EvUpdate lesson_1
            {| upd_content := None;
               upd_status := Some Failed;
               upd_trace :=
                 Some (FailureTrace (lit "[object Object]") None
                         (lit "2025-01-01T00:00:00.000Z")) |}) /\
  pg_message statement_timeout = lit "canceling statement due to statement timeout" /\
  lit "[object Object]" <> pg_message statement_timeout.
Proof.
  generalize (generateLessonContent_never_throws sample_engine
                (env_both_fail (reject_generated_with (thrown_error_object statement_timeout)))
                lesson_1 topic sample_world).
  vm_compute. intros [Hret [Hlast _]].
  split; [exact Hret|]. split; [exact Hlast|]. split; [reflexivity|discriminate].
Qed.

(** C3 at two failing adapters and a store that accepts every update. *)
Lemma both_adapters_fail_witness :
  exists t,
    mock t = Some true /\
    fallback_reason t = Some (lit "fetch failed") /\
    last_event (generateLessonContent sample_engine (env_both_fail accept_updates)
                  lesson_1 topic sample_world).2
    = Some (EvUpdate lesson_1
              {| upd_content := Some (generateMockLesson topic (is_easter_egg sample_engine topic));
                 upd_status := Some Generated;
                 upd_trace := Some (RunTrace t) |}).
Proof.
  destruct (both_adapters_fail sample_engine (env_both_fail accept_updates)
              lesson_1 topic sample_world network_down network_down)
    as (t & Hmock & Hreason & _ & _ & Hlast); try (by vm_compute).
  exists t. split; [exact Hmock|]. split; [exact Hreason|].
  by apply Hlast.
Defined.

(** C3, as stated, fails: when the store rejects the [Generated] update the
    terminal update of a run in which both adapters failed is the [Failed]
    one. *)
Lemma both_adapters_fail_store_rejects :
  let env := env_both_fail reject_generated in
  configured (HELICONE_API_KEY env) = true /\
  configured (GEMINI_API_KEY env) = true /\
  helicone_outcome sample_engine env topic = Raise network_down /\
  gemini_outcome sample_engine env topic = Raise network_down /\
  exists fields,
    last_event (generateLessonContent sample_engine env lesson_1 topic sample_world).2
    = Some (EvUpdate lesson_1 fields) /\
    upd_status fields = Some Failed /\
    upd_status fields <> Some Generated.
Proof.
  vm_compute. repeat split. eexists. by repeat split.
Qed.

(** C4 at a body without [outline], at one whose [outline] is empty, and
    at the body [null]. *)
Lemma POST_rejects_missing_outline_witness :
  POST sample_engine env_no_keys (inl (JObj [])) empty_world
  = (Return {| code := 400; payload := ErrorBody (lit "Outline is required") |},
     empty_world) /\
  POST sample_engine env_no_keys (inl (JObj [(lit "outline", JStr [])])) empty_world
  = (Return {| code := 400; payload := ErrorBody (lit "Outline is required") |},
     empty_world) /\
  POST sample_engine env_no_keys (inl JNull) empty_world
  = (Return {| code := 500; payload := ErrorBody (lit "Internal server error") |},
     empty_world).
Proof.
  split; [|split].
  - by apply (proj1 (POST_rejects_missing_outline sample_engine env_no_keys
                       (inl (JObj [])) empty_world) (JObj []) None).
  - by apply (proj1 (POST_rejects_missing_outline sample_engine env_no_keys
                       (inl (JObj [(lit "outline", JStr [])])) empty_world)
                (JObj [(lit "outline", JStr [])]) (Some (JStr []))).
  - apply (proj1 (proj2 (proj2 (POST_rejects_missing_outline sample_engine env_no_keys
                                  (inl JNull) empty_world)))).
    by right.
Defined.

(** C4, as stated, fails: an outline of three spaces is truthy, so the row
    is inserted and the answer is 200. *)
Lemma POST_accepts_whitespace_outline :
  let request := inl (JObj [(lit "outline", JStr (lit "   "))]) in
  let posted := POST sample_engine env_no_keys request empty_world in
  forallb is_ws (lit "   ") = true /\
  posted.1 = Return {| code := 200; payload := CreatedBody lesson_1 Generating |} /\
  log posted.2
  = [EvInsert {| ins_outline := lit "   "; ins_title := lit "   ";
                 ins_status := Generating |}] /\
  is_Some (store posted.2 !! lesson_1).
Proof.
  vm_compute. repeat split. by eexists.
Qed.

(** C6 at a request served by the mock generator. *)
Lemma records_keep_invariant_witness :
  let request := inl (JObj [(lit "outline", JStr topic)]) in
  let posted := POST sample_engine env_no_keys request empty_world in
  store_invariant (store posted.2) /\
  store_invariant (store (settle sample_engine env_no_keys posted.2)).
Proof.
  destruct (records_keep_invariant sample_engine env_no_keys
              (inl (JObj [(lit "outline", JStr topic)])) empty_world
              store_invariant_empty eq_refl) as (H1 & H2 & _).
  split; [exact H1|exact H2].
Defined.

(** C6, as stated, fails: the Gemini adapter hands on an empty text, and
    the record becomes [Generated] with an empty content. *)
Lemma generated_record_with_empty_content :
  let env := env_gemini (gemini_text_reply []) in
  let request := inl (JObj [(lit "outline", JStr topic)]) in
  let settled := settle sample_engine env (POST sample_engine env request empty_world).2 in
  exists l,
    store settled !! lesson_1 = Some l /\
    status l = Generated /\
    content l = Some [] /\
    ~ lesson_invariant_spec l.
Proof.
  eexists. split; [by vm_compute|]. split; [done|]. split; [done|].
  unfold lesson_invariant_spec. simpl. by intros [(c & [= <-] & Hne) _].
Qed.



(** C8, as stated, fails: the Gemini adapter is sent the normal template,
    the trace keeps the one-line summary. *)
Lemma trace_prompt_differs_from_sent :
  let env := env_gemini (gemini_text_reply (lit "export const answer = 42;")) in
  let run := generateLessonContent sample_engine env lesson_1 topic sample_world in
  exists sent c t,
    log run.2 = [EvAttempt Gemini sent;
                 EvUpdate lesson_1
                   {| upd_content := Some c; upd_status := Some Generated;
                      upd_trace := Some (RunTrace t) |}] /\
    sent = normal_prompt topic /\
    prompt t = lit "Generate a TypeScript educational module for: Photosynthesis quiz" /\
    prompt t <> sent.
Proof.
  do 3 eexists. split; [by vm_compute|]. by vm_compute.
Qed.


(** X5 at a line of code without fences. *)
Lemma strip_fences_fixed_witness :
  strip_fences (lit "export const answer = 42;") = lit "export const answer = 42;".
Proof.
  apply (strip_fences_fixed (lit "export const answer = 42;")); by vm_compute.
Defined.

(** X7 at the sample topic and a store that accepts the insert. *)
Lemma POST_creates_lesson_witness :
  let posted := POST sample_engine env_no_keys (inl topic_request) empty_world in
  posted.1 = Return {| code := 200; payload := CreatedBody lesson_1 Generating |} /\
  detached posted.2 = [(lesson_1, topic)].
Proof.
  assert (Htext : topic <> []) by (by vm_compute).
  destruct (POST_creates_lesson sample_engine env_no_keys topic_request topic lesson_1
              (lit "2025-01-01T00:00:00.000Z") empty_world eq_refl Htext eq_refl)
    as (Hanswer & _ & _ & _ & _ & Hcall).
  split; [exact Hanswer|exact Hcall].
Defined.

(** X8 at the sample topic and a store that rejects the insert. *)
Lemma POST_store_failure_witness :
  let posted := POST sample_engine env_insert_fails (inl topic_request) empty_world in
  posted.1 = Return {| code := 500; payload := ErrorBody (lit "Failed to create lesson") |} /\
  store posted.2 = ∅ /\
  detached posted.2 = [].
Proof.
  assert (Htext : topic <> []) by (by vm_compute).
  destruct (POST_store_failure sample_engine env_insert_fails topic_request topic
              store_error empty_world eq_refl Htext eq_refl)
    as (Hanswer & Hstore & Hcall & _).
  split; [exact Hanswer|]. split; [exact Hstore|exact Hcall].
Defined.

(** X9 at the body [null] and at a body whose [outline] is [true]. *)
Lemma POST_unusable_body_witness :
  POST sample_engine env_no_keys (inl JNull) empty_world
  = (Return {| code := 500; payload := ErrorBody (lit "Internal server error") |},
     empty_world) /\
  POST sample_engine env_no_keys (inl (JObj [(lit "outline", JBool true)])) empty_world
  = (Return {| code := 500; payload := ErrorBody (lit "Internal server error") |},
     empty_world).
Proof.
  split; apply POST_unusable_body.
  - right. by left.
  - right. right. exists (JObj [(lit "outline", JBool true)]), (Some (JBool true)).
    split; [reflexivity|]. split; [by vm_compute|]. split; [reflexivity|].
    intros s. discriminate.
Defined.

(** X12 at the sample lesson. *)
Lemma generateLessonContent_without_credentials_witness :
  let run := generateLessonContent sample_engine env_no_keys lesson_1 topic sample_world in
  exists t l,
    log run.2
    = [EvUpdate lesson_1
         {| upd_content := Some (generateMockLesson topic false);
            upd_status := Some Generated;
            upd_trace := Some (RunTrace t) |}] /\
    mock t = Some true /\
    provider t = None /\
    store run.2 !! lesson_1 = Some l /\
    status l = Generated.
Proof.
  generalize (generateLessonContent_without_credentials sample_engine env_no_keys
                lesson_1 topic sample_world eq_refl eq_refl).
  vm_compute. intros [Hlog Hrow].
  destruct (Hrow eq_refl _ eq_refl) as (l & Hl & Hstatus & _).
  eexists _, l. split; [exact Hlog|]. split; [reflexivity|]. split; [reflexivity|].
  split; [exact Hl|exact Hstatus].
Defined.

(** X16 at a Gemini reply whose text is fenced. *)
Lemma adapters_return_clean_text_witness :
  let env := env_gemini (gemini_text_reply (lit "```ts
export const answer = 42;
```")) in
  let c := lit "export const answer = 42;" in
  (generateWithGemini sample_engine env (sent_prompt sample_engine topic)
     (blank_trace, empty_world)).1 = Return c /\
  includes (lit "```") c = false /\
  trim c = c.
Proof.
  assert (Hreturn :
    (generateWithGemini sample_engine
       (env_gemini (gemini_text_reply (lit "```ts
export const answer = 42;
```")))
       (sent_prompt sample_engine topic) (blank_trace, empty_world)).1
    = Return (lit "export const answer = 42;")) by (by vm_compute).
  split; [exact Hreturn|].
  apply (adapters_return_clean_text sample_engine _ _ _ _ _ (or_introl Hreturn)).
Defined.

(** X18 at a Gemini endpoint that answers 503. *)
Lemma gemini_bad_status_falls_back_witness :
  let env := env_gemini (inl unavailable) in
  let run := generateLessonContent sample_engine env lesson_1 topic sample_world in
  exists t,
    log run.2
    = [EvAttempt Gemini (normal_prompt topic);
       EvUpdate lesson_1
         {| upd_content := Some (generateMockLesson topic false);
            upd_status := Some Generated;
            upd_trace := Some (RunTrace t) |}] /\
    provider t = Some (lit "gemini") /\
    fallback_reason t = Some (lit "Gemini API returned 503: overloaded").
Proof.
  generalize (gemini_bad_status_falls_back sample_engine (env_gemini (inl unavailable))
                lesson_1 topic sample_world unavailable (lit "overloaded")
                eq_refl eq_refl eq_refl eq_refl eq_refl).
  vm_compute. intros (t & tail & Hlog & _ & _ & Hprovider & Hreason).
  exists t. split; [|split; [exact Hprovider|exact Hreason]].
  destruct tail; [exact Hlog|discriminate Hlog].
Defined.

(** X21 at a text area of three spaces. *)
Lemma handleGenerate_blank_witness :
  handleGenerate sample_engine env_no_keys None (page_with (lit "   "), empty_world)
  = (Return tt, (page_with (lit "   "), empty_world)).
Proof.
  apply handleGenerate_blank. by vm_compute.
Defined.

(** X22 at the sample topic, with a store that accepts the insert. *)
Lemma handleGenerate_submits_witness :
  let run := handleGenerate sample_engine env_no_keys None (page_with topic, empty_world) in
  run.1 = Return tt /\
  isGenerating run.2.1 = false /\
  form_outline run.2.1 = [] /\
  alerts run.2.1 = [] /\
  refreshes run.2.1 = 1%nat /\
  detached run.2.2 = [(lesson_1, topic)].
Proof.
  assert (Htext : trim (form_outline (page_with topic)) <> []) by (by vm_compute).
  generalize (handleGenerate_submits sample_engine env_no_keys (page_with topic)
                empty_world Htext).
  vm_compute. intros (Hret & Hbusy & _ & Hform & Halerts & Hfetched & Hworld).
  split; [exact Hret|]. split; [exact Hbusy|]. split; [exact Hform|].
  split; [exact Halerts|]. split; [exact Hfetched|].
  exact (f_equal detached Hworld).
Defined.

(** X23 at the sample topic, with the network down. *)
Lemma handleGenerate_offline_witness :
  handleGenerate sample_engine env_no_keys (Some network_down)
    (page_with topic, empty_world)
  = (Return tt,
     ({| form_outline := topic; isGenerating := false;
         alerts := [lit "Failed to generate lesson. Please try again."];
         refreshes := 0 |}, empty_world)).
Proof.
  apply (handleGenerate_offline sample_engine env_no_keys network_down (page_with topic)
           empty_world).
  by vm_compute.
Defined.

(** X24 at the sample topic, served by the mock generator. *)
Lemma LessonPage_after_create_witness :
  let posted := (POST sample_engine env_no_keys (inl topic_request) empty_world).2 in
  LessonPage None (store posted) lesson_1 = Some (topic, [Spinner]) /\
  exists t,
    LessonPage None (store (settle sample_engine env_no_keys posted)) lesson_1
    = Some (topic, [CodePreview (generateMockLesson topic false); TraceLog (RunTrace t)]).
Proof.
  assert (Htext : topic <> []) by (by vm_compute).
  generalize (LessonPage_after_create sample_engine env_no_keys topic_request topic
                lesson_1 (lit "2025-01-01T00:00:00.000Z") empty_world
                eq_refl Htext eq_refl eq_refl).
  vm_compute. intros [Hfirst Hthen].
  split; [exact Hfirst|]. eexists. exact Hthen.
Defined.
